(** * ReplyMate: [create_linkedin_icons.py]

    A shallow embedding of the icon generator: the renderer
    [create_linkedin_chat_icon] and the driver [main].

    - Python integers are [Z]; [//] is [Z.div] (floor division).
    - Python floats are IEEE-754 binary64 values, taken from the
      standard library's [SpecFloat] ([prec = 53], [emax = 1024]),
      with round-to-nearest-even multiplication.
    - Exceptions are values of [exn]; a computation is a function from
      the world (image heap, file system, standard output, record of
      draw calls) to a result and the world it leaves.
    - Pillow's rasterisers and its PNG encoder are not code of this
      repository: they are section variables, and every theorem holds
      for any choice of them. *)

From Stdlib Require Import ZArith List Lia String Ascii SpecFloat DecimalString.
From stdpp Require Import base option list gmap strings.

#[local] Open Scope string_scope.
#[local] Open Scope Z_scope.

(** ** Python numbers *)

Module Py.

(** The exceptions the program can meet. The last five are the
    subclasses of [OSError] raised by [os.mkdir] and [open]. *)
Inductive exn : Type :=
| OverflowError
| ValueError
| FileExistsError (path : string)
| FileNotFoundError (path : string)
| NotADirectoryError (path : string)
| IsADirectoryError (path : string).

Definition prec : Z := 53.
Definition emax : Z := 1024.

Abbreviation float := spec_float.

(** [float(n)] for an integer [n]: the nearest double, ties to even;
    [OverflowError] when that is not finite. *)
Definition float_of_int (n : Z) : exn + float :=
  match binary_normalize prec emax n 0 false with
  | S754_infinity _ => inl OverflowError
  | S754_nan => inl OverflowError
  | x => inr x
  end.

(** A decimal literal [num/den] read as a double: the correctly rounded
    quotient of two small integers. *)
Definition literal (num den : Z) : float :=
  SFdiv prec emax (binary_normalize prec emax num 0 false)
                  (binary_normalize prec emax den 0 false).

Definition f0_7  : float := Eval vm_compute in literal 7 10.
Definition f0_75 : float := Eval vm_compute in literal 75 100.
Definition f0_15 : float := Eval vm_compute in literal 15 100.
Definition f0_2  : float := Eval vm_compute in literal 2 10.
Definition f0_3  : float := Eval vm_compute in literal 3 10.

(** [int(x)]: truncation toward zero. *)
Definition int_of_float (x : float) : exn + Z :=
  match x with
  | S754_zero _ => inr 0
  | S754_finite s m e => inr (cond_Zopp s (Z.shiftl (Z.pos m) e))
  | S754_infinity _ => inl OverflowError
  | S754_nan => inl ValueError
  end.

(** [math.floor(x)]: rounding toward minus infinity. *)
Definition floor_of_float (x : float) : exn + Z :=
  match x with
  | S754_zero _ => inr 0
  | S754_finite false m e => inr (Z.shiftl (Z.pos m) e)
  | S754_finite true m e => inr (- ((Z.pos m + 2 ^ (- e) - 1) / 2 ^ (- e)))
  | S754_infinity _ => inl OverflowError
  | S754_nan => inl ValueError
  end.

(** [n * c] for an integer [n] and a float [c]: [n] is converted first. *)
Definition mul_int_float (n : Z) (c : float) : exn + float :=
  match float_of_int n with
  | inl e => inl e
  | inr x => inr (SFmul prec emax x c)
  end.

(** [int(n * c)] *)
Definition int_mul (n : Z) (c : float) : exn + Z :=
  match mul_int_float n c with
  | inl e => inl e
  | inr x => int_of_float x
  end.

(** [math.floor(n * c)] *)
Definition floor_mul (n : Z) (c : float) : exn + Z :=
  match mul_int_float n c with
  | inl e => inl e
  | inr x => floor_of_float x
  end.

(** [str(n)] *)
Definition str (n : Z) : string := NilZero.string_of_int (Z.to_int n).

End Py.


(** ** The world: image heap, file system, standard output *)

Definition color : Type := Z * Z * Z.

(** A Pillow image: its declared size [(width, height)] and the pixel
    buffer, row by row. *)
Record Image : Type := { im_size : Z * Z; im_data : list (list color) }.

Definition box : Type := Z * Z * Z * Z.

(** The shapes [ImageDraw] is asked to fill. *)
Inductive shape : Type :=
| RoundedRectangle (xy : box) (radius : Z)
| Polygon (xy : list (Z * Z))
| Ellipse (xy : box).

Definition loc : Type := positive.

(** One call of a fill method of [ImageDraw.Draw]: the image drawn on,
    the shape and the ink. *)
Record draw_call : Type :=
  { dc_image : loc; dc_shape : shape; dc_fill : color }.

Inductive node : Type :=
| Dir
| File (content : list Byte.byte).

Record World : Type :=
  { heap : gmap loc Image;
    fs : gmap string node;
    stdout : list string;
    drawn : list draw_call }.

Definition set_heap (h : gmap loc Image) (w : World) : World :=
  {| heap := h; fs := fs w; stdout := stdout w; drawn := drawn w |}.
Definition set_fs (f : gmap string node) (w : World) : World :=
  {| heap := heap w; fs := f; stdout := stdout w; drawn := drawn w |}.
Definition add_stdout (line : string) (w : World) : World :=
  {| heap := heap w; fs := fs w; stdout := stdout w ++ [line]; drawn := drawn w |}.
Definition add_drawn (c : draw_call) (w : World) : World :=
  {| heap := heap w; fs := fs w; stdout := stdout w; drawn := drawn w ++ [c] |}.

Definition empty_world : World :=
  {| heap := ∅; fs := ∅; stdout := []; drawn := [] |}.

(** ** Computations that may raise and that change the world *)

Definition M (A : Type) : Type := World -> (Py.exn + A) * World.

Definition ret {A} (a : A) : M A := fun w => (inr a, w).
Definition raise {A} (e : Py.exn) : M A := fun w => (inl e, w).
Definition bind {A B} (m : M A) (k : A -> M B) : M B :=
  fun w => match m w with
           | (inr a, w1) => k a w1
           | (inl e, w1) => (inl e, w1)
           end.
Definition lift {A} (r : Py.exn + A) : M A :=
  match r with inl e => raise e | inr a => ret a end.

(** [try: m except OSError as e: h e] (every exception of the file
    system operations below is an [OSError]). *)
Definition try_except {A} (m : M A) (h : Py.exn -> M A) : M A :=
  fun w => match m w with
           | (inr a, w1) => (inr a, w1)
           | (inl e, w1) => h e w1
           end.

Notation "'let*' x ':=' m 'in' k" := (bind m (fun x => k))
  (at level 10, x pattern, m at level 100, k at level 200).

(** [for x in xs: body x] *)
Fixpoint for_each {A} (xs : list A) (body : A -> M unit) : M unit :=
  match xs with
  | [] => ret tt
  | x :: rest => let* _ := body x in for_each rest body
  end.

(** [range(n)] *)
Definition range (n : nat) : list Z := map Z.of_nat (seq 0 n).

(** [print(line)] *)
Definition print (line : string) : M unit :=
  fun w => (inr tt, add_stdout line w).

(** ** Pillow *)

Definition hex_digit (c : ascii) : option Z :=
  let n := Z.of_N (N_of_ascii c) in
  if (48 <=? n) && (n <=? 57) then Some (n - 48)
  else if (97 <=? n) && (n <=? 102) then Some (n - 87)
  else if (65 <=? n) && (n <=? 70) then Some (n - 55)
  else None.

Definition hex_byte (hi lo : ascii) : option Z :=
  match hex_digit hi, hex_digit lo with
  | Some h, Some l => Some (16 * h + l)
  | _, _ => None
  end.

(** [ImageColor.getrgb] on the [#rrggbb] form, the only one the program
    uses; any other string is refused here. *)
Definition getrgb (name : string) : option color :=
  match list_ascii_of_string name with
  | [hash; r1; r2; g1; g2; b1; b2] =>
      if Ascii.eqb hash "#"%char then
        match hex_byte r1 r2, hex_byte g1 g2, hex_byte b1 b2 with
        | Some r, Some g, Some b => Some (r, g, b)
        | _, _, _ => None
        end
      else None
  | _ => None
  end.

(** The largest C [int]: Pillow hands the two sides of an image to its
    C core as [int]s. *)
Definition INT_MAX : Z := 2 ^ 31 - 1.

(** [Image.new('RGB', size, color)]: a fresh image, every pixel of the
    given colour. A negative side is refused with [ValueError], then a
    colour that does not parse, then a side above [INT_MAX] with
    [OverflowError]. Running out of memory for a side that fits is not
    modelled. *)
Definition Image_new (size : Z * Z) (colorname : string) : M loc :=
  fun w =>
    if (size.1 <? 0) || (size.2 <? 0) then (inl Py.ValueError, w)
    else match getrgb colorname with
         | None => (inl Py.ValueError, w)
         | Some c =>
             if (INT_MAX <? size.1) || (INT_MAX <? size.2)
             then (inl Py.OverflowError, w)
             else
               let l := fresh (dom (heap w)) in
               let im := {| im_size := size;
                            im_data := replicate (Z.to_nat size.2)
                                         (replicate (Z.to_nat size.1) c) |} in
               (inr l, set_heap (<[l := im]> (heap w)) w)
         end.

(** [ImageDraw.Draw(im)]: the drawing object keeps a reference to the
    image and draws on it in place. *)
Record Draw : Type := { draw_im : loc }.

Definition ImageDraw_Draw (im : loc) : M Draw := ret {| draw_im := im |}.

(** [(width, height)] read off the pixel buffer *)
Definition rows (im : Image) : Z := Z.of_nat (length (im_data im)).
Definition pixel (im : Image) (x y : nat) : option color :=
  im_data im !! y ≫= fun row => row !! x.

(** ** The file system

    A path names a directory or a regular file; a path without a slash
    lives in the current directory, which always exists. *)

Fixpoint take_while {A} (f : A -> bool) (l : list A) : list A :=
  match l with
  | [] => []
  | x :: rest => if f x then x :: take_while f rest else []
  end.

Fixpoint drop_while {A} (f : A -> bool) (l : list A) : list A :=
  match l with
  | [] => []
  | x :: rest => if f x then drop_while f rest else l
  end.

Definition is_slash (c : ascii) : bool := Ascii.eqb c "/"%char.

(** [os.path.split]: the path up to its last slash, without trailing
    slashes unless it is made of slashes only, and what follows. *)
Definition path_split (p : string) : string * string :=
  let cs := rev (list_ascii_of_string p) in
  let tail := take_while (fun c => negb (is_slash c)) cs in
  let head := drop_while (fun c => negb (is_slash c)) cs in
  let head := match drop_while is_slash head with
              | [] => head
              | stripped => stripped
              end in
  (string_of_list_ascii (rev head), string_of_list_ascii (rev tail)).

Definition dirname (p : string) : string := fst (path_split p).

(** The node of the directory holding [p]. *)
Definition parent_node (p : string) (w : World) : option node :=
  if String.eqb (dirname p) "" then Some Dir else fs w !! dirname p.

(** [os.path.exists(p)] and [os.path.isdir(p)] *)
Definition path_exists (p : string) : M bool :=
  fun w => (inr (match fs w !! p with Some _ => true | None => false end), w).

Definition path_isdir (p : string) : M bool :=
  fun w => (inr (match fs w !! p with Some Dir => true | _ => false end), w).

(** [os.mkdir(p)] *)
Definition mkdir (p : string) : M unit :=
  fun w =>
    match parent_node p w with
    | None => (inl (Py.FileNotFoundError p), w)
    | Some (File _) => (inl (Py.NotADirectoryError p), w)
    | Some Dir =>
        match fs w !! p with
        | Some _ => (inl (Py.FileExistsError p), w)
        | None => (inr tt, set_fs (<[p := Dir]> (fs w)) w)
        end
    end.

(** [open(p, "w+b")], writing [data] and closing: the file is created
    or its content replaced. *)
Definition write_file (p : string) (data : list Byte.byte) : M unit :=
  fun w =>
    match parent_node p w with
    | None => (inl (Py.FileNotFoundError p), w)
    | Some (File _) => (inl (Py.NotADirectoryError p), w)
    | Some Dir =>
        match fs w !! p with
        | Some Dir => (inl (Py.IsADirectoryError p), w)
        | _ => (inr tt, set_fs (<[p := File data]> (fs w)) w)
        end
    end.

(** The directories [os.makedirs(name)] may have to create before
    [name], nearest first: [name]'s head, the head's head, and so on
    while both parts of the split are non-empty. *)
Fixpoint heads (fuel : nat) (name : string) : list string :=
  match fuel with
  | O => []
  | S fuel' =>
      let '(head, tail) := path_split name in
      let '(head, tail) :=
        if String.eqb tail "" then path_split head else (head, tail) in
      if String.eqb head "" || String.eqb tail "" then []
      else head :: heads fuel' head
  end.

(** [os.makedirs(name, exist_ok=exist_ok)], as in CPython's [os.py]:
    create the missing head first, tolerating [FileExistsError] there;
    then [mkdir(name)], whose failure is forgiven only when [exist_ok]
    is set and [name] is a directory. *)
Fixpoint makedirs_rec (name : string) (hs : list string) (exist_ok : bool)
    : M unit :=
  let* _ := match hs with
            | [] => ret tt
            | head :: hs' =>
                let* present := path_exists head in
                if (present : bool) then ret tt
                else try_except (makedirs_rec head hs' exist_ok)
                       (fun e => match e with
                                 | Py.FileExistsError _ => ret tt
                                 | _ => raise e
                                 end)
            end in
  try_except (mkdir name)
    (fun e => let* isdir := path_isdir name in
              if negb exist_ok || negb isdir then raise e else ret tt).

Definition makedirs (name : string) (exist_ok : bool) : M unit :=
  makedirs_rec name (heads (String.length name) name) exist_ok.

Section Program.

(** Which pixels a shape covers is decided by Pillow's rasterisers, and
    how an image is written in a file format by its encoders. *)
Variable rasterize : shape -> Z -> Z -> bool.
Variable encode : string -> Image -> list Byte.byte.

(** Filling a shape: covered pixels take the ink, the others stay. *)
Definition paint (sh : shape) (ink : color) (im : Image) : Image :=
  {| im_size := im_size im;
     im_data :=
       imap (fun y row =>
               imap (fun x old =>
                       if rasterize sh (Z.of_nat x) (Z.of_nat y) then ink else old)
                    row)
            (im_data im) |}.

Definition fill_shape (draw : Draw) (sh : shape) (fill : string) : M unit :=
  fun w =>
    match getrgb fill, heap w !! draw_im draw with
    | Some ink, Some im =>
        (inr tt,
         add_drawn {| dc_image := draw_im draw; dc_shape := sh; dc_fill := ink |}
           (set_heap (<[draw_im draw := paint sh ink im]> (heap w)) w))
    | _, _ => (inl Py.ValueError, w)
    end.

(** [draw.rounded_rectangle(xy, radius=radius, fill=fill)] *)
Definition rounded_rectangle (draw : Draw) (xy : box) (radius : Z)
    (fill : string) : M unit :=
  fill_shape draw (RoundedRectangle xy radius) fill.

(** [draw.polygon(xy, fill=fill)] *)
Definition polygon (draw : Draw) (xy : list (Z * Z)) (fill : string) : M unit :=
  fill_shape draw (Polygon xy) fill.

(** [draw.ellipse(xy, fill=fill)] *)
Definition ellipse (draw : Draw) (xy : box) (fill : string) : M unit :=
  fill_shape draw (Ellipse xy) fill.

(** [im.save(filename, fmt)] *)
Definition Image_save (im : loc) (filename fmt : string) : M unit :=
  fun w =>
    match heap w !! im with
    | None => (inl Py.ValueError, w)
    | Some i => write_file filename (encode fmt i) w
    end.

(** ** The program *)

Definition create_linkedin_chat_icon (size : Z) : M loc :=
  let linkedin_blue := "#0A66C2" in
  let white := "#FFFFFF" in
  let* img := Image_new (size, size) linkedin_blue in
  let* draw := ImageDraw_Draw img in
  let* bubble_size := lift (Py.int_mul size Py.f0_7) in
  let margin := (size - bubble_size) / 2 in
  let bubble_left := margin in
  let bubble_top := margin in
  let bubble_right := margin + bubble_size in
  let* bubble_height := lift (Py.int_mul bubble_size Py.f0_75) in
  let bubble_bottom := margin + bubble_height in
  let* corner_radius := lift (Py.int_mul bubble_size Py.f0_15) in
  let* _ := rounded_rectangle draw
              (bubble_left, bubble_top, bubble_right, bubble_bottom)
              corner_radius white in
  let* tail_size := lift (Py.int_mul bubble_size Py.f0_2) in
  let* tail_offset := lift (Py.int_mul bubble_size Py.f0_3) in
  let tail_x := bubble_left + tail_offset in
  let tail_y := bubble_bottom in
  let tail_points :=
    [(tail_x, tail_y);
     (tail_x + tail_size, tail_y);
     (tail_x + tail_size / 2, tail_y + tail_size / 2)] in
  let* _ := polygon draw tail_points white in
  let dot_radius := Z.max 1 (size / 32) in
  let dot_y := bubble_top + bubble_size / 3 in
  let center_x := bubble_left + bubble_size / 2 in
  let dot_spacing := bubble_size / 6 in
  let* _ := for_each (range 3) (fun i =>
              let dot_x := center_x - dot_spacing + i * dot_spacing in
              ellipse draw
                (dot_x - dot_radius, dot_y - dot_radius,
                 dot_x + dot_radius, dot_y + dot_radius)
                linkedin_blue) in
  ret img.

Definition main : M unit :=
  let icons_dir := "src/icons" in
  let* _ := makedirs icons_dir true in
  let sizes := [16; 32; 64; 128] in
  for_each sizes (fun size =>
    let* icon := create_linkedin_chat_icon size in
    let filename := (icons_dir ++ "/logo-" ++ Py.str size ++ ".png")%string in
    let* _ := Image_save icon filename "PNG" in
    print ("Created " ++ filename)%string).

End Program.

(** ** What one successful rendering draws

    The five integers the renderer obtains from floating-point
    products, and the draw calls and the image they determine. *)

Record geometry : Type :=
  { bubble_size : Z;     (* int(size * 0.7) *)
    bubble_height : Z;   (* int(bubble_size * 0.75) *)
    corner_radius : Z;   (* int(bubble_size * 0.15) *)
    tail_size : Z;       (* int(bubble_size * 0.2) *)
    tail_offset : Z }.   (* int(bubble_size * 0.3) *)

Definition icon_geometry (size : Z) : Py.exn + geometry :=
  match Py.int_mul size Py.f0_7 with
  | inl e => inl e
  | inr bs =>
  match Py.int_mul bs Py.f0_75 with
  | inl e => inl e
  | inr bh =>
  match Py.int_mul bs Py.f0_15 with
  | inl e => inl e
  | inr cr =>
  match Py.int_mul bs Py.f0_2 with
  | inl e => inl e
  | inr ts =>
  match Py.int_mul bs Py.f0_3 with
  | inl e => inl e
  | inr to =>
      inr {| bubble_size := bs; bubble_height := bh; corner_radius := cr;
             tail_size := ts; tail_offset := to |}
  end end end end end.

Definition linkedin_blue : color := (10, 102, 194).
Definition white : color := (255, 255, 255).

Definition margin (size : Z) (g : geometry) : Z := (size - bubble_size g) / 2.

Definition bubble_call (size : Z) (g : geometry) (img : loc) : draw_call :=
  let m := margin size g in
  {| dc_image := img;
     dc_shape := RoundedRectangle (m, m, m + bubble_size g, m + bubble_height g)
                   (corner_radius g);
     dc_fill := white |}.

Definition tail_call (size : Z) (g : geometry) (img : loc) : draw_call :=
  let m := margin size g in
  let tail_x := m + tail_offset g in
  let tail_y := m + bubble_height g in
  {| dc_image := img;
     dc_shape := Polygon [(tail_x, tail_y);
                          (tail_x + tail_size g, tail_y);
                          (tail_x + tail_size g / 2, tail_y + tail_size g / 2)];
     dc_fill := white |}.

Definition dot_call (size : Z) (g : geometry) (img : loc) (i : Z) : draw_call :=
  let m := margin size g in
  let r := Z.max 1 (size / 32) in
  let y := m + bubble_size g / 3 in
  let x := m + bubble_size g / 2 - bubble_size g / 6 + i * (bubble_size g / 6) in
  {| dc_image := img;
     dc_shape := Ellipse (x - r, y - r, x + r, y + r);
     dc_fill := linkedin_blue |}.

Definition icon_calls (size : Z) (g : geometry) (img : loc) : list draw_call :=
  [bubble_call size g img; tail_call size g img;
   dot_call size g img 0; dot_call size g img 1; dot_call size g img 2].

Definition blank (size : Z) (c : color) : Image :=
  {| im_size := (size, size);
     im_data := replicate (Z.to_nat size) (replicate (Z.to_nat size) c) |}.

(** What a run leaves to its caller: the exception, or the image behind
    the reference returned. *)
Definition outcome (r : (Py.exn + loc) * World) : Py.exn + option Image :=
  match r with
  | (inl e, _) => inl e
  | (inr l, w) => inr (heap w !! l)
  end.

(** Every coordinate of a draw call lies on a canvas of side [size]. *)
Definition on_canvas (size : Z) (v : Z) : bool := (0 <=? v) && (v <=? size - 1).

Definition box_on_canvas (size : Z) (b : box) : bool :=
  let '(x0, y0, x1, y1) := b in
  on_canvas size x0 && on_canvas size y0 && on_canvas size x1 && on_canvas size y1.

Definition call_on_canvas (size : Z) (c : draw_call) : bool :=
  match dc_shape c with
  | RoundedRectangle b _ => box_on_canvas size b
  | Ellipse b => box_on_canvas size b
  | Polygon pts =>
      forallb (fun p : Z * Z => on_canvas size p.1 && on_canvas size p.2) pts
  end.

Section Rendering.

Variable rasterize : shape -> Z -> Z -> bool.

Definition paint_call (im : Image) (c : draw_call) : Image :=
  paint rasterize (dc_shape c) (dc_fill c) im.

(** The image the calls of one rendering produce. *)
Definition icon_image (size : Z) (g : geometry) : Image :=
  fold_left paint_call (icon_calls size g 1%positive) (blank size linkedin_blue).

(** The world a successful rendering leaves. *)
Definition rendered (size : Z) (g : geometry) (w : World) : World :=
  let l := fresh (dom (heap w)) in
  {| heap := <[l := icon_image size g]> (heap w);
     fs := fs w;
     stdout := stdout w;
     drawn := drawn w ++ icon_calls size g l |}.

Variable encode : string -> Image -> list Byte.byte.

(** The body of the driver's loop. *)
Definition write_icon (icons_dir : string) (size : Z) : M unit :=
  let* icon := create_linkedin_chat_icon rasterize size in
  let filename := (icons_dir ++ "/logo-" ++ Py.str size ++ ".png")%string in
  let* _ := Image_save encode icon filename "PNG" in
  print ("Created " ++ filename)%string.

Definition logo_path (size : Z) : string :=
  ("src/icons/logo-" ++ Py.str size ++ ".png")%string.

(** The file system once the icon of side [size] is written, and once
    all those of a list are. *)
Definition with_icon (f : gmap string node) (size : Z) : gmap string node :=
  match icon_geometry size with
  | inr g => <[logo_path size := File (encode "PNG" (icon_image size g))]> f
  | inl _ => f
  end.

Definition with_icons (f : gmap string node) (sizes : list Z)
    : gmap string node :=
  fold_left with_icon sizes f.

Definition with_icons_dir (f : gmap string node) : gmap string node :=
  <["src/icons" := Dir]> (<["src" := Dir]> f).

Definition created_line (size : Z) : string :=
  ("Created " ++ logo_path size)%string.

(** Where a run of the driver first fails: in creating the directory,
    with nothing done, or in writing the icon that follows the sizes
    [done]. *)
Definition first_failure (w : World) (done : list Z) (e : Py.exn)
    (w1 : World) : Prop :=
  (done = [] /\ makedirs "src/icons" true w = (inl e, w1)) \/
  (exists w0 v s todo,
     makedirs "src/icons" true w = (inr tt, w0) /\
     [16; 32; 64; 128] = (done ++ s :: todo)%list /\
     for_each done (write_icon "src/icons") w0 = (inr tt, v) /\
     write_icon "src/icons" s v = (inl e, w1)).

End Rendering.

(** The driver can create its directory and write its files: neither
    [src] nor [src/icons] is a regular file, and no icon path is a
    directory. *)
Definition writable (w : World) : Prop :=
  (forall c, fs w !! "src" <> Some (File c)) /\
  (forall c, fs w !! "src/icons" <> Some (File c)) /\
  Forall (fun size => fs w !! logo_path size <> Some Dir) [16; 32; 64; 128].

(** A box Pillow accepts: the second corner is not before the first. *)
Definition ordered_call (c : draw_call) : bool :=
  match dc_shape c with
  | RoundedRectangle (x0, y0, x1, y1) r => (x0 <=? x1) && (y0 <=? y1) && (0 <=? r)
  | Ellipse (x0, y0, x1, y1) => (x0 <? x1) && (y0 <? y1)
  | Polygon _ => true
  end.

(** A world where [src/icons/logo-32.png] is a directory. *)
Definition blocked_world : World :=
  {| heap := ∅;
     fs := <["src/icons/logo-32.png" := Dir]>
             (<["src/icons" := Dir]> (<["src" := Dir]> ∅));
     stdout := [];
     drawn := [] |}.

(** A computation that touches nothing but the file system. *)
Definition fs_only {A} (m : M A) : Prop :=
  forall w, exists f, snd (m w) = set_fs f w.

(** A computation that leaves the entry of path [p] alone, and one
    that leaves every existing entry alone, whether they return or
    raise. *)
Definition keeps_path {A} (p : string) (m : M A) : Prop :=
  forall w, fs (snd (m w)) !! p = fs w !! p.

Definition keeps_entries {A} (m : M A) : Prop :=
  forall w p n, fs w !! p = Some n -> fs (snd (m w)) !! p = Some n.

(** A size the driver can be run on: its geometry is computed and its
    file lies directly in [src/icons]. *)
Definition driver_size (s : Z) : Prop :=
  0 <= s <= INT_MAX /\ (exists g, icon_geometry s = inr g) /\
  dirname (logo_path s) = "src/icons".

(** A computation that leaves the file system and the output alone,
    whether it returns or raises. *)
Definition quiet {A} (m : M A) : Prop :=
  forall w, fs (snd (m w)) = fs w /\ stdout (snd (m w)) = stdout w.

(** An image of side [size]: declared so, with [size] rows of [size]
    pixels. *)
Definition has_side (size : Z) (im : Image) : Prop :=
  im_size im = (size, size) /\
  Z.of_nat (length (im_data im)) = size /\
  Forall (fun row => Z.of_nat (length row) = size) (im_data im).

(** Every pixel is one of the two colours of the icon. *)
Definition two_coloured (im : Image) : Prop :=
  Forall (Forall (fun c => c = linkedin_blue \/ c = white)) (im_data im).

Definition is_rounded_rectangle (c : draw_call) : bool :=
  match dc_shape c with RoundedRectangle _ _ => true | _ => false end.
Definition is_polygon (c : draw_call) : bool :=
  match dc_shape c with Polygon _ => true | _ => false end.
Definition is_ellipse (c : draw_call) : bool :=
  match dc_shape c with Ellipse _ => true | _ => false end.

(** ** Finite doubles *)

Definition sign_is (s : bool) (x : spec_float) : Prop :=
  match x with
  | S754_zero s' | S754_infinity s' | S754_finite s' _ _ => s' = s
  | S754_nan => True
  end.

(** A finite double: zero, or a mantissa below [2^53] at an exponent
    between [emin] and [emax - prec]. *)
Definition bounded (x : spec_float) : Prop :=
  match x with
  | S754_zero _ => True
  | S754_finite _ m e => Z.pos m < 2 ^ 53 /\ -1074 <= e <= 971
  | _ => False
  end.

(** A positive double below one: a mantissa below [2^53] at an
    exponent of at most [-53]. *)
Definition below_one (c : spec_float) : Prop :=
  match c with
  | S754_finite false m e => Z.pos m < 2 ^ 53 /\ -1074 <= e <= -53
  | _ => False
  end.

(** The float [binary_round_aux] returns for a rounded mantissa [m2] of
    at most 54 digits at exponent [t]. *)
Definition pack (s : bool) (m2 t : Z) : spec_float :=
  if m2 =? 0 then S754_zero s
  else if m2 <? 2 ^ 53
       then if t <=? 971 then S754_finite s (Z.to_pos m2) t else S754_infinity s
       else if t + 1 <=? 971 then S754_finite s (Z.to_pos (2 ^ 52)) (t + 1)
            else S754_infinity s.

(** The least integer [float()] refuses: halfway between the largest
    double and [2^1024]. *)
Definition max_int : Z := 2 ^ 1024 - 2 ^ 970.

(** A rasteriser and an encoder to run the program on: the first fills
    bounding boxes, the second writes the declared width only. *)
Definition box_raster (sh : shape) (x y : Z) : bool :=
  match sh with
  | RoundedRectangle (x0, y0, x1, y1) _ | Ellipse (x0, y0, x1, y1) =>
      (x0 <=? x) && (x <=? x1) && (y0 <=? y) && (y <=? y1)
  | Polygon pts =>
      existsb (fun p : Z * Z => (p.1 =? x) && (p.2 =? y)) pts
  end.

Definition width_encoder (fmt : string) (im : Image) : list Byte.byte :=
  match Byte.of_N (Z.to_N ((im_size im).1 mod 256)) with
  | Some b => [b]
  | None => []
  end.

(** * Properties *)

(** ** The literals *)

Example f0_7_bits : Py.f0_7 = S754_finite false 6305039478318694 (-53).
Proof. reflexivity. Qed.

Example int_mul_16 : Py.int_mul 16 Py.f0_7 = inr 11.
Proof. vm_compute. reflexivity. Qed.

Example int_mul_90 : Py.int_mul 90 Py.f0_7 = inr 62.
Proof. vm_compute. reflexivity. Qed.


(** ** Running computations *)

Lemma bind_inr {A B} (m : M A) (k : A -> M B) w a w1 :
  m w = (inr a, w1) -> bind m k w = k a w1.
Proof. intros H. unfold bind. now rewrite H. Qed.

Lemma bind_inl {A B} (m : M A) (k : A -> M B) w e w1 :
  m w = (inl e, w1) -> bind m k w = (inl e, w1).
Proof. intros H. unfold bind. now rewrite H. Qed.

Lemma bind_success {A B} (m : M A) (k : A -> M B) w b w' :
  bind m k w = (inr b, w') ->
  exists a w1, m w = (inr a, w1) /\ k a w1 = (inr b, w').
Proof.
  unfold bind. destruct (m w) as [[e|a] w1]; [discriminate|]. eauto.
Qed.

Lemma lift_success {A} (r : Py.exn + A) w a w' :
  lift r w = (inr a, w') -> r = inr a /\ w' = w.
Proof. destruct r; cbn; intros [= <- <-]; auto. Qed.

Lemma getrgb_blue : getrgb "#0A66C2" = Some linkedin_blue.
Proof. reflexivity. Qed.

Lemma getrgb_white : getrgb "#FFFFFF" = Some white.
Proof. reflexivity. Qed.

Lemma Image_new_run size name c h f out dr :
  0 <= size <= INT_MAX -> getrgb name = Some c ->
  Image_new (size, size) name
    {| heap := h; fs := f; stdout := out; drawn := dr |}
  = (inr (fresh (dom h)),
     {| heap := <[fresh (dom h) := blank size c]> h;
        fs := f; stdout := out; drawn := dr |}).
Proof.
  intros Hs Hc. unfold Image_new. cbn [fst snd heap].
  destruct (Z.ltb_spec size 0); [lia|]. cbn [orb]. rewrite Hc.
  destruct (Z.ltb_spec INT_MAX size); [lia|]. reflexivity.
Qed.

Lemma Image_new_negative size name w :
  size < 0 -> Image_new (size, size) name w = (inl Py.ValueError, w).
Proof.
  intros Hs. unfold Image_new. cbn [fst snd].
  destruct (Z.ltb_spec size 0); [reflexivity|lia].
Qed.

Lemma Image_new_too_wide size name c w :
  INT_MAX < size -> getrgb name = Some c ->
  Image_new (size, size) name w = (inl Py.OverflowError, w).
Proof.
  intros Hs Hc. unfold Image_new. cbn [fst snd].
  destruct (Z.ltb_spec size 0); [unfold INT_MAX in Hs; lia|]. cbn [orb].
  rewrite Hc. destruct (Z.ltb_spec INT_MAX size); [reflexivity|lia].
Qed.

(** [Image.new] returns for the sides from 0 to [INT_MAX], and for no
    other. *)
Lemma Image_new_returns size name w l w1 :
  Image_new (size, size) name w = (inr l, w1) -> 0 <= size <= INT_MAX.
Proof.
  unfold Image_new. cbn [fst snd].
  destruct (Z.ltb_spec size 0); [discriminate|]. cbn [orb].
  destruct (getrgb name); [|discriminate].
  destruct (Z.ltb_spec INT_MAX size); [discriminate|]. lia.
Qed.

Lemma INT_MAX_small : INT_MAX < 2 ^ 49 /\ INT_MAX < max_int.
Proof. split; reflexivity. Qed.

(** ** Floating-point products of non-negative numbers *)

Lemma binary_round_aux_sign s m e l :
  sign_is s (binary_round_aux Py.prec Py.emax s m e l).
Proof.
  unfold binary_round_aux.
  destruct (shr_fexp Py.prec Py.emax m e l) as [mrs' e'].
  destruct (shr_fexp Py.prec Py.emax _ e' loc_Exact) as [mrs'' e''].
  destruct (shr_m mrs''); cbn; auto.
  destruct (e'' <=? Py.emax - Py.prec); cbn; auto.
Qed.

Lemma float_of_int_sign n x :
  0 <= n -> Py.float_of_int n = inr x -> sign_is false x.
Proof.
  intros Hn. unfold Py.float_of_int, binary_normalize.
  destruct n as [|p|p]; [| |lia].
  - intros [= <-]. reflexivity.
  - unfold binary_round.
    destruct (shl_align _ _ _) as [mz ez].
    pose proof (binary_round_aux_sign false (Z.pos mz) ez loc_Exact) as Hsign.
    destruct (binary_round_aux _ _ _ _ _ _); intros [= <-]; exact Hsign.
Qed.

Lemma mul_int_float_sign n m e x :
  0 <= n -> Py.mul_int_float n (S754_finite false m e) = inr x ->
  sign_is false x.
Proof.
  intros Hn. unfold Py.mul_int_float.
  destruct (Py.float_of_int n) as [|y] eqn:Hy; [discriminate|].
  intros [= <-]. apply float_of_int_sign in Hy; [|exact Hn].
  destruct y as [sy|sy| |sy my ey]; cbn in Hy |- *; subst; auto.
  apply binary_round_aux_sign.
Qed.

(** On a product of non-negative factors, truncation and floor agree. *)
Lemma int_mul_floor_mul n m e :
  0 <= n ->
  Py.int_mul n (S754_finite false m e) = Py.floor_mul n (S754_finite false m e).
Proof.
  intros Hn. unfold Py.int_mul, Py.floor_mul.
  destruct (Py.mul_int_float n _) as [|x] eqn:Hx; [reflexivity|].
  apply mul_int_float_sign in Hx; [|exact Hn].
  destruct x as [| | |s mx ex]; cbn in Hx |- *; subst; reflexivity.
Qed.

Lemma int_mul_nonneg n m e k :
  0 <= n -> Py.int_mul n (S754_finite false m e) = inr k -> 0 <= k.
Proof.
  intros Hn. unfold Py.int_mul.
  destruct (Py.mul_int_float n _) as [|x] eqn:Hx; [discriminate|].
  apply mul_int_float_sign in Hx; [|exact Hn].
  destruct x as [| | |s mx ex]; cbn in Hx |- *; subst;
    intros [= <-]; try lia.
  cbn. apply Z.shiftl_nonneg. lia.
Qed.

(** ** Rounding to a double

    What [binary_round_aux] computes on an exact positive input, read
    off its definition: the mantissa is shifted right to 53 digits,
    rounded to nearest even, and shifted once more if rounding carried. *)

Lemma digits2_size p : digits2_pos p = Pos.size p.
Proof. induction p; cbn; congruence. Qed.

Lemma digits2_bounds p :
  2 ^ (Z.pos (digits2_pos p) - 1) <= Z.pos p < 2 ^ Z.pos (digits2_pos p).
Proof.
  rewrite digits2_size.
  assert (H : Z.pos (Pos.size p) = Z.succ (Z.log2 (Z.pos p))).
  { destruct p; cbn; lia. }
  rewrite H. replace (Z.succ (Z.log2 (Z.pos p)) - 1) with (Z.log2 (Z.pos p)) by lia.
  apply Z.log2_spec. lia.
Qed.

Lemma shr_1_m mrs : 0 <= shr_m mrs -> shr_m (shr_1 mrs) = shr_m mrs / 2.
Proof.
  destruct mrs as [m r s]. cbn [shr_m]. intros Hm.
  destruct m as [|[p|p|]|p]; cbn [shr_1 shr_m]; [reflexivity| | |reflexivity|lia].
  - rewrite Pos2Z.inj_xI. apply Z.div_unique with (r := 1); lia.
  - rewrite Pos2Z.inj_xO. apply Z.div_unique with (r := 0); lia.
Qed.

Lemma shr_1_r mrs : 0 <= shr_m mrs -> shr_r (shr_1 mrs) = Z.odd (shr_m mrs).
Proof.
  destruct mrs as [m r s]. cbn [shr_m]. intros Hm.
  destruct m as [|[p|p|]|p]; cbn [shr_1 shr_r]; try reflexivity; lia.
Qed.

Lemma shr_m_iter p : forall mrs, 0 <= shr_m mrs ->
  shr_m (SpecFloat.iter_pos shr_1 p mrs) = shr_m mrs / 2 ^ Z.pos p.
Proof.
  induction p as [p IH|p IH|]; intros mrs Hm; cbn [SpecFloat.iter_pos].
  - assert (H1 : 0 <= shr_m (shr_1 mrs)) by (rewrite shr_1_m by lia; apply Z.div_pos; lia).
    assert (H2 : 0 <= shr_m (SpecFloat.iter_pos shr_1 p (shr_1 mrs)))
      by (rewrite IH by lia; apply Z.div_pos; lia).
    rewrite IH, IH, shr_1_m by lia.
    rewrite !Z.div_div by lia. f_equal.
    change (Z.pos p~1) with (2 * Z.pos p + 1).
    replace (2 * Z.pos p + 1) with (1 + Z.pos p + Z.pos p) by lia.
    rewrite !Z.pow_add_r by lia. lia.
  - assert (H2 : 0 <= shr_m (SpecFloat.iter_pos shr_1 p mrs))
      by (rewrite IH by lia; apply Z.div_pos; lia).
    rewrite IH, IH by lia.
    rewrite !Z.div_div by lia. f_equal.
    change (Z.pos p~0) with (2 * Z.pos p).
    replace (2 * Z.pos p) with (Z.pos p + Z.pos p) by lia.
    rewrite !Z.pow_add_r by lia. lia.
  - rewrite shr_1_m by lia. reflexivity.
Qed.

Lemma shr_r_iter p : forall mrs, 0 <= shr_m mrs ->
  shr_r (SpecFloat.iter_pos shr_1 p mrs) = Z.testbit (shr_m mrs) (Z.pos p - 1).
Proof.
  induction p as [p IH|p IH|]; intros mrs Hm; cbn [SpecFloat.iter_pos].
  - assert (H1 : 0 <= shr_m (shr_1 mrs)) by (rewrite shr_1_m by lia; apply Z.div_pos; lia).
    assert (H2 : 0 <= shr_m (SpecFloat.iter_pos shr_1 p (shr_1 mrs)))
      by (rewrite shr_m_iter by lia; apply Z.div_pos; lia).
    rewrite IH by lia. rewrite shr_m_iter, shr_1_m by lia.
    rewrite Z.div_div by lia.
    replace (2 * 2 ^ Z.pos p) with (2 ^ (Z.pos p + 1)) by (rewrite Z.pow_add_r by lia; lia).
    rewrite Z.div_pow2_bits by lia. f_equal. lia.
  - assert (H2 : 0 <= shr_m (SpecFloat.iter_pos shr_1 p mrs))
      by (rewrite shr_m_iter by lia; apply Z.div_pos; lia).
    rewrite IH by lia. rewrite shr_m_iter by lia.
    rewrite Z.div_pow2_bits by lia. f_equal. lia.
  - rewrite shr_1_r by lia. rewrite Z.bit0_odd. reflexivity.
Qed.

Lemma fexp_eq x : fexp Py.prec Py.emax x = Z.max (x - 53) (-1074).
Proof. reflexivity. Qed.

Lemma round_nearest_even_range mx lx :
  mx <= round_nearest_even mx lx <= mx + 1.
Proof.
  destruct lx as [|[| |]]; cbn; try lia. destruct (Z.even mx); lia.
Qed.

Lemma round_nearest_even_down m mrs :
  shr_r mrs = false -> round_nearest_even m (loc_of_shr_record mrs) = m.
Proof. destruct mrs as [m' r s]. cbn. intros ->. destruct s; reflexivity. Qed.

(** The second normalisation of [binary_round_aux], on a mantissa of
    at most 54 digits. *)
Lemma renormalize m2 t :
  0 <= m2 <= 2 ^ 53 -> -1074 <= t ->
  shr_fexp Py.prec Py.emax m2 t loc_Exact
  = if m2 <? 2 ^ 53
    then ({| shr_m := m2; shr_r := false; shr_s := false |}, t)
    else ({| shr_m := 2 ^ 52; shr_r := false; shr_s := false |}, t + 1).
Proof.
  intros Hm Ht. unfold shr_fexp. rewrite fexp_eq.
  destruct (Z.ltb_spec m2 (2 ^ 53)) as [Hlt|Hge].
  - assert (Hd : Zdigits2 m2 <= 53).
    { destruct m2 as [|p|p]; cbn; [lia| |lia].
      pose proof (digits2_bounds p) as [Hlo _].
      destruct (Z.le_gt_cases (Z.pos (digits2_pos p)) 53) as [|Hgt]; [assumption|].
      assert (2 ^ 53 <= 2 ^ (Z.pos (digits2_pos p) - 1))
        by (apply Z.pow_le_mono_r; lia).
      lia. }
    unfold shr. cbn [shr_record_of_loc].
    destruct (Z.max (Zdigits2 m2 + t - 53) (-1074) - t) eqn:E; try reflexivity.
    lia.
  - assert (m2 = 2 ^ 53) as -> by lia.
    replace (Zdigits2 (2 ^ 53)) with 54 by (vm_compute; reflexivity).
    replace (Z.max (54 + t - 53) (-1074) - t) with 1 by lia.
    cbn. f_equal.
Qed.

Lemma pack_spec s m2 t :
  0 <= m2 <= 2 ^ 53 -> -1074 <= t ->
  (let '(mrs, e) := shr_fexp Py.prec Py.emax m2 t loc_Exact in
   match shr_m mrs with
   | Z0 => S754_zero s
   | Zpos m => if e <=? Py.emax - Py.prec then S754_finite s m e else S754_infinity s
   | Zneg _ => S754_nan
   end) = pack s m2 t.
Proof.
  intros Hm Ht. rewrite renormalize by assumption. unfold pack.
  destruct (Z.ltb_spec m2 (2 ^ 53)); cbn [shr_m].
  - destruct m2 as [|p|p]; [reflexivity| |lia]. cbn [Z.eqb Z.to_pos]. reflexivity.
  - destruct (Z.eqb_spec m2 0); [lia|]. reflexivity.
Qed.

Lemma digits_small p e :
  Z.max (Z.pos (digits2_pos p) + e - 53) (-1074) <= e ->
  Z.pos p < 2 ^ 53 /\ -1074 <= e.
Proof.
  intros H. split; [|lia].
  pose proof (digits2_bounds p) as [_ Hhi].
  assert (2 ^ Z.pos (digits2_pos p) <= 2 ^ 53) by (apply Z.pow_le_mono_r; lia).
  lia.
Qed.

Lemma round_exact_fits s m e :
  Z.max (Z.pos (digits2_pos m) + e - 53) (-1074) <= e ->
  binary_round_aux Py.prec Py.emax s (Z.pos m) e loc_Exact = pack s (Z.pos m) e.
Proof.
  intros H. pose proof (digits_small m e H) as [Hm He].
  unfold binary_round_aux.
  assert (E : shr_fexp Py.prec Py.emax (Z.pos m) e loc_Exact
              = ({| shr_m := Z.pos m; shr_r := false; shr_s := false |}, e)).
  { unfold shr_fexp. rewrite fexp_eq. cbn [Zdigits2 shr_record_of_loc]. unfold shr.
    destruct (Z.max (Z.pos (digits2_pos m) + e - 53) (-1074) - e) eqn:E;
      try reflexivity. lia. }
  rewrite E. cbn [shr_m loc_of_shr_record round_nearest_even].
  apply pack_spec; lia.
Qed.

Lemma round_exact_shifts s m e :
  let t := Z.max (Z.pos (digits2_pos m) + e - 53) (-1074) in
  e < t ->
  exists m2,
    Z.pos m / 2 ^ (t - e) <= m2 <= Z.pos m / 2 ^ (t - e) + 1 /\
    (Z.testbit (Z.pos m) (t - e - 1) = false -> m2 = Z.pos m / 2 ^ (t - e)) /\
    Z.pos m / 2 ^ (t - e) < 2 ^ 53 /\
    binary_round_aux Py.prec Py.emax s (Z.pos m) e loc_Exact = pack s m2 t.
Proof.
  intros t Ht.
  assert (Hq : 0 <= Z.pos m / 2 ^ (t - e) < 2 ^ 53).
  { split; [apply Z.div_pos; lia|].
    apply Z.div_lt_upper_bound; [lia|].
    rewrite <- Z.pow_add_r by lia.
    pose proof (digits2_bounds m) as [_ Hhi].
    assert (2 ^ Z.pos (digits2_pos m) <= 2 ^ (t - e + 53))
      by (apply Z.pow_le_mono_r; lia).
    lia. }
  unfold binary_round_aux.
  destruct (shr_fexp Py.prec Py.emax (Z.pos m) e loc_Exact) as [mrs' e'] eqn:E.
  unfold shr_fexp in E. rewrite fexp_eq in E.
  cbn [Zdigits2 shr_record_of_loc] in E. fold t in E. unfold shr in E.
  destruct (t - e) as [|n|n] eqn:En; [lia| |lia].
  injection E as <- <-.
  set (mrs := SpecFloat.iter_pos shr_1 n _).
  assert (Hm1 : shr_m mrs = Z.pos m / 2 ^ Z.pos n)
    by (unfold mrs; rewrite shr_m_iter; cbn [shr_m]; [reflexivity|lia]).
  assert (Hr1 : shr_r mrs = Z.testbit (Z.pos m) (Z.pos n - 1))
    by (unfold mrs; rewrite shr_r_iter; cbn [shr_m]; [reflexivity|lia]).
  exists (round_nearest_even (shr_m mrs) (loc_of_shr_record mrs)).
  pose proof (round_nearest_even_range (shr_m mrs) (loc_of_shr_record mrs)) as Hrange.
  split; [lia|]. split.
  { intros Hbit. rewrite round_nearest_even_down by congruence. exact Hm1. }
  split; [lia|].
  replace (e + Z.pos n) with t by lia.
  apply pack_spec; [lia|unfold t; lia].
Qed.

Lemma pack_bounded s m2 t :
  0 <= m2 <= 2 ^ 53 -> -1074 <= t <= 971 ->
  (2 ^ 53 <= m2 -> t + 1 <= 971) ->
  bounded (pack s m2 t).
Proof.
  intros Hm Ht Hcarry. unfold pack.
  destruct (Z.eqb_spec m2 0); [exact I|].
  destruct (Z.ltb_spec m2 (2 ^ 53)).
  - destruct (Z.leb_spec t 971); [|lia]. cbn. rewrite Z2Pos.id by lia. lia.
  - destruct (Z.leb_spec (t + 1) 971); [|lia]. cbn. lia.
Qed.

Lemma digits2_iter_xO p k :
  Z.pos (digits2_pos (Pos.iter xO p k)) = Z.pos (digits2_pos p) + Z.pos k.
Proof.
  induction k as [|k IH] using Pos.peano_ind.
  - cbn. lia.
  - rewrite Pos.iter_succ. cbn [digits2_pos]. lia.
Qed.

Lemma binary_normalize_bounded n :
  0 <= n < max_int ->
  bounded (binary_normalize Py.prec Py.emax n 0 false).
Proof.
  intros [Hn Hmax]. destruct n as [|p|p]; [exact I| |lia].
  unfold binary_normalize, binary_round, shl_align.
  rewrite fexp_eq.
  pose proof (digits2_bounds p) as [Hlo Hhi].
  set (d := Z.pos (digits2_pos p)) in *.
  assert (Hd1 : 1 <= d) by (unfold d; lia).
  assert (Hd : d <= 1024).
  { destruct (Z.le_gt_cases d 1024) as [|Hgt]; [assumption|].
    assert (2 ^ 1024 <= 2 ^ (d - 1)) by (apply Z.pow_le_mono_r; lia).
    unfold max_int in Hmax. assert (0 < 2 ^ 970) by (apply Z.pow_pos_nonneg; lia). lia. }
  replace (Z.max (d + 0 - 53) (-1074) - 0) with (d - 53) by lia.
  destruct (d - 53) as [|k|k] eqn:Ek.
  - rewrite round_exact_fits by (fold d; lia).
    apply pack_bounded; [|lia|].
    + assert (2 ^ d = 2 ^ 53) by (f_equal; lia). lia.
    + assert (2 ^ d = 2 ^ 53) by (f_equal; lia). lia.
  - destruct (round_exact_shifts false p 0) as (m2 & Hm2 & Hbit & Hm1 & ->);
      fold d; [lia|].
    fold d in Hm2, Hbit, Hm1.
    replace (Z.max (d + 0 - 53) (-1074)) with (d - 53) in * by lia.
    replace (d - 53 - 0) with (d - 53) in * by lia.
    assert (0 <= Z.pos p / 2 ^ (d - 53)) by (apply Z.div_pos; lia).
    apply pack_bounded; [lia|lia|].
    intros Hcarry.
    destruct (Z.eq_dec d 1024) as [E|]; [|lia]. exfalso.
    rewrite E in *. change (1024 - 53) with 971 in *.
    assert (Hm1' : Z.pos p / 2 ^ 971 = 2 ^ 53 - 1) by lia.
    destruct (Z.testbit (Z.pos p) (971 - 1)) eqn:Hb;
      [|specialize (Hbit eq_refl); lia].
    change (971 - 1) with 970 in Hb.
    apply Z.testbit_true in Hb; [|lia].
    assert (Hdd : Z.pos p / 2 ^ 970 / 2 = Z.pos p / 2 ^ 971).
    { rewrite Z.div_div by lia. f_equal. }
    pose proof (Z.div_mod (Z.pos p / 2 ^ 970) 2 ltac:(lia)) as Hdm.
    rewrite Hb, Hdd, Hm1' in Hdm.
    pose proof (Z.mul_div_le (Z.pos p) (2 ^ 970) ltac:(lia)) as Hle.
    rewrite Hdm in Hle. unfold max_int in Hmax.
    replace (2 ^ 1024) with (2 ^ 54 * 2 ^ 970) in Hmax
      by (rewrite <- Z.pow_add_r by lia; reflexivity).
    set (P := 2 ^ 970) in *.
    change (2 ^ 53) with 9007199254740992 in Hle.
    change (2 ^ 54) with 18014398509481984 in Hmax.
    lia.
  - rewrite round_exact_fits.
    + apply pack_bounded; [|lia|].
      * pose proof (digits2_bounds (Pos.iter xO p k)) as [_ Hhi'].
        rewrite digits2_iter_xO in Hhi'. fold d in Hhi'.
        replace (d + Z.pos k) with 53 in Hhi' by lia. lia.
      * pose proof (digits2_bounds (Pos.iter xO p k)) as [_ Hhi'].
        rewrite digits2_iter_xO in Hhi'. fold d in Hhi'.
        replace (d + Z.pos k) with 53 in Hhi' by lia. lia.
    + rewrite digits2_iter_xO. fold d. lia.
Qed.

Lemma SFmul_bounded x c :
  bounded x -> below_one c -> bounded (SFmul Py.prec Py.emax x c).
Proof.
  destruct c as [| | |[|] mc ec]; try (intros _ []; fail).
  destruct x as [sx|sx| |sx mx ex]; try (intros []; fail).
  - intros _ _. exact I.
  - intros [Hmx Hex] [Hmc Hec]. cbn [SFmul].
    change (Z.pos (mx * mc)) with (Z.pos mx * Z.pos mc).
    rewrite <- Pos2Z.inj_mul.
    set (t := Z.max (Z.pos (digits2_pos (mx * mc)) + (ex + ec) - 53) (-1074)).
    pose proof (digits2_bounds (mx * mc)) as [Hlo Hhi].
    assert (Hprod : Z.pos (mx * mc) < 2 ^ 106).
    { rewrite Pos2Z.inj_mul. change (2 ^ 106) with (2 ^ 53 * 2 ^ 53). nia. }
    assert (Hd : Z.pos (digits2_pos (mx * mc)) <= 106).
    { destruct (Z.le_gt_cases (Z.pos (digits2_pos (mx * mc))) 106) as [|Hgt];
        [assumption|].
      assert (2 ^ 106 <= 2 ^ (Z.pos (digits2_pos (mx * mc)) - 1))
        by (apply Z.pow_le_mono_r; lia).
      lia. }
    assert (Ht : -1074 <= t <= ex) by (unfold t; lia).
    destruct (Z.le_gt_cases t (ex + ec)) as [Hfit|Hshift].
    + rewrite round_exact_fits by exact Hfit.
      pose proof (digits_small _ _ Hfit) as [Hsmall He].
      apply pack_bounded; lia.
    + destruct (round_exact_shifts (xorb sx false) (mx * mc) (ex + ec))
        as (m2 & Hm2 & _ & Hm1 & ->); [exact Hshift|].
      fold t in Hm2, Hm1 |- *.
      assert (H0 : 0 <= Z.pos (mx * mc) / 2 ^ (t - (ex + ec)))
        by (apply Z.div_pos; lia).
      apply pack_bounded; [lia|lia|].
      intros Hcarry.
      (* the product lies below [mx * 2^(ex - t)] in units of [2^t] *)
      assert (Hlt : Z.pos (mx * mc) / 2 ^ (t - (ex + ec)) < Z.pos mx * 2 ^ (ex - t)).
      { apply Z.div_lt_upper_bound; [lia|].
        rewrite Pos2Z.inj_mul.
        replace (2 ^ (t - (ex + ec)) * (Z.pos mx * 2 ^ (ex - t)))
          with (Z.pos mx * 2 ^ (- ec)).
        2:{ replace (- ec) with ((t - (ex + ec)) + (ex - t)) by lia.
            rewrite Z.pow_add_r by lia. ring. }
        assert (2 ^ 53 <= 2 ^ (- ec)) by (apply Z.pow_le_mono_r; lia).
        nia. }
      destruct (Z.eq_dec t ex) as [E|]; [|lia].
      replace (ex - t) with 0 in Hlt by lia. change (2 ^ 0) with 1 in Hlt. lia.
Qed.

Lemma shiftl_bounded m e :
  Z.pos m < 2 ^ 53 -> e <= 971 -> 0 <= Z.shiftl (Z.pos m) e < max_int.
Proof.
  intros Hm He. split; [apply Z.shiftl_nonneg; lia|].
  assert (Hmax : 2 ^ 53 * 2 ^ 971 - 2 ^ 971 < max_int).
  { unfold max_int. vm_compute. reflexivity. }
  destruct (Z.le_gt_cases 0 e).
  - rewrite Z.shiftl_mul_pow2 by lia.
    assert (2 ^ e <= 2 ^ 971) by (apply Z.pow_le_mono_r; lia).
    assert (0 < 2 ^ e) by (apply Z.pow_pos_nonneg; lia).
    nia.
  - rewrite Z.shiftl_div_pow2 by lia.
    assert (0 < 2 ^ (- e)) by (apply Z.pow_pos_nonneg; lia).
    assert (Z.pos m / 2 ^ (- e) <= Z.pos m) by (apply Z.div_le_upper_bound; nia).
    assert (0 < 2 ^ 971) by (apply Z.pow_pos_nonneg; lia).
    nia.
Qed.

(** ** [int(n * c)] for a constant [c] below one *)

Lemma literals_below_one :
  below_one Py.f0_7 /\ below_one Py.f0_75 /\ below_one Py.f0_15 /\
  below_one Py.f0_2 /\ below_one Py.f0_3.
Proof.
  unfold below_one, Py.f0_7, Py.f0_75, Py.f0_15, Py.f0_2, Py.f0_3.
  repeat split; lia.
Qed.

Lemma int_mul_total n c :
  0 <= n < max_int -> below_one c ->
  exists k, Py.int_mul n c = inr k /\ 0 <= k < max_int.
Proof.
  intros Hn Hc.
  pose proof (binary_normalize_bounded n Hn) as Hb.
  assert (Hf : exists x, Py.float_of_int n = inr x /\ bounded x).
  { unfold Py.float_of_int.
    destruct (binary_normalize Py.prec Py.emax n 0 false);
      cbn in Hb; try contradiction; eauto. }
  destruct Hf as (x & Hx & Hbx).
  pose proof (SFmul_bounded x c Hbx Hc) as Hprod.
  assert (Hmul : Py.mul_int_float n c = inr (SFmul Py.prec Py.emax x c))
    by (unfold Py.mul_int_float; now rewrite Hx).
  assert (Hsign : sign_is false (SFmul Py.prec Py.emax x c)).
  { destruct c as [| | |[|] mc ec]; try contradiction.
    apply (mul_int_float_sign n mc ec); [lia|exact Hmul]. }
  unfold Py.int_mul. rewrite Hmul.
  destruct (SFmul Py.prec Py.emax x c) as [s|s| |s m e];
    cbn in Hprod, Hsign; try contradiction.
  - exists 0. split; [reflexivity|]. lia.
  - subst s. exists (Z.shiftl (Z.pos m) e). split; [reflexivity|].
    apply shiftl_bounded; lia.
Qed.

(** Below [max_int] the five products are all computed. *)
Lemma icon_geometry_total size :
  0 <= size < max_int ->
  exists g, icon_geometry size = inr g /\ 0 <= bubble_size g.
Proof.
  intros Hs. destruct literals_below_one as (H7 & H75 & H15 & H2 & H3).
  unfold icon_geometry.
  destruct (int_mul_total size _ Hs H7) as (bs & -> & Hbs).
  destruct (int_mul_total bs _ Hbs H75) as (bh & -> & _).
  destruct (int_mul_total bs _ Hbs H15) as (cr & -> & _).
  destruct (int_mul_total bs _ Hbs H2) as (ts & -> & _).
  destruct (int_mul_total bs _ Hbs H3) as (to & -> & _).
  eexists. split; [reflexivity|]. cbn. lia.
Qed.

Lemma icon_geometry_inv size g :
  icon_geometry size = inr g ->
  Py.int_mul size Py.f0_7 = inr (bubble_size g) /\
  Py.int_mul (bubble_size g) Py.f0_75 = inr (bubble_height g) /\
  Py.int_mul (bubble_size g) Py.f0_15 = inr (corner_radius g) /\
  Py.int_mul (bubble_size g) Py.f0_2 = inr (tail_size g) /\
  Py.int_mul (bubble_size g) Py.f0_3 = inr (tail_offset g).
Proof.
  unfold icon_geometry.
  destruct (Py.int_mul size Py.f0_7) as [|bs] eqn:E1; [discriminate|].
  destruct (Py.int_mul bs Py.f0_75) as [|bh] eqn:E2; [discriminate|].
  destruct (Py.int_mul bs Py.f0_15) as [|cr] eqn:E3; [discriminate|].
  destruct (Py.int_mul bs Py.f0_2) as [|ts] eqn:E4; [discriminate|].
  destruct (Py.int_mul bs Py.f0_3) as [|to] eqn:E5; [discriminate|].
  intros [= <-]. cbn. auto.
Qed.

(** The same five numbers, with [floor] for [int]. *)
Lemma icon_geometry_floor size g :
  0 <= size -> icon_geometry size = inr g ->
  0 <= bubble_size g /\
  Py.floor_mul size Py.f0_7 = inr (bubble_size g) /\
  Py.floor_mul (bubble_size g) Py.f0_75 = inr (bubble_height g) /\
  Py.floor_mul (bubble_size g) Py.f0_15 = inr (corner_radius g) /\
  Py.floor_mul (bubble_size g) Py.f0_2 = inr (tail_size g) /\
  Py.floor_mul (bubble_size g) Py.f0_3 = inr (tail_offset g).
Proof.
  intros Hs Hg. apply icon_geometry_inv in Hg as (H1 & H2 & H3 & H4 & H5).
  assert (Hbs : 0 <= bubble_size g)
    by (exact (int_mul_nonneg size _ _ _ Hs H1)).
  split; [exact Hbs|].
  unfold Py.f0_7, Py.f0_75, Py.f0_15, Py.f0_2, Py.f0_3 in *.
  rewrite <- !int_mul_floor_mul by assumption. auto.
Qed.

(** ** The products against exact arithmetic *)

Lemma pos_iter_xO p k : Z.pos (Pos.iter xO p k) = Z.pos p * 2 ^ Z.pos k.
Proof.
  induction k as [|k IH] using Pos.peano_ind.
  - cbn. lia.
  - rewrite Pos.iter_succ, Pos2Z.inj_xO, IH, Pos2Z.inj_succ, Z.pow_succ_r by lia.
    ring.
Qed.

(** An integer of at most 53 digits converts exactly: its mantissa is
    the integer shifted left to 53 digits. *)
Lemma float_of_small_int p :
  Z.pos p < 2 ^ 53 ->
  exists mx a,
    Py.float_of_int (Z.pos p) = inr (S754_finite false mx (- a)) /\
    Z.pos mx = Z.pos p * 2 ^ a /\ 0 <= a <= 52 /\
    2 ^ 52 <= Z.pos mx < 2 ^ 53.
Proof.
  intros Hp.
  pose proof (digits2_bounds p) as [Hlo Hhi].
  set (d := Z.pos (digits2_pos p)) in *.
  assert (Hd1 : 1 <= d) by (unfold d; lia).
  assert (Hd : d <= 53).
  { destruct (Z.le_gt_cases d 53) as [|Hgt]; [assumption|].
    assert (2 ^ 53 <= 2 ^ (d - 1)) by (apply Z.pow_le_mono_r; lia). lia. }
  unfold Py.float_of_int, binary_normalize, binary_round, shl_align.
  rewrite fexp_eq. fold d.
  replace (Z.max (d + 0 - 53) (-1074) - 0) with (d - 53) by lia.
  destruct (d - 53) as [|k|k] eqn:Ek; [|lia|].
  - assert (d = 53) as Hd53 by lia.
    rewrite round_exact_fits by (fold d; lia).
    unfold pack. destruct (Z.ltb_spec (Z.pos p) (2 ^ 53)); [|lia].
    cbn [Z.eqb Z.leb Z.compare Z.to_pos].
    exists p, 0. split; [reflexivity|].
    rewrite Hd53 in Hlo. change (53 - 1) with 52 in Hlo.
    split; [lia|]. split; lia.
  - assert (Hk : Z.pos k = 53 - d) by lia.
    pose proof (pos_iter_xO p k) as Hmz.
    assert (Hmzlo : 2 ^ 52 <= Z.pos (Pos.iter xO p k) < 2 ^ 53).
    { rewrite Hmz, Hk.
      replace (2 ^ 52) with (2 ^ (d - 1) * 2 ^ (53 - d))
        by (rewrite <- Z.pow_add_r by lia; f_equal; lia).
      replace (2 ^ 53) with (2 ^ d * 2 ^ (53 - d))
        by (rewrite <- Z.pow_add_r by lia; f_equal; lia).
      assert (0 < 2 ^ (53 - d)) by (apply Z.pow_pos_nonneg; lia).
      nia. }
    rewrite round_exact_fits by (rewrite digits2_iter_xO; fold d; lia).
    unfold pack. destruct (Z.ltb_spec (Z.pos (Pos.iter xO p k)) (2 ^ 53)); [|lia].
    replace (Z.max (d + 0 - 53) (-1074)) with (- Z.pos k) by lia.
    destruct (Z.leb_spec (- Z.pos k) 971); [|lia].
    cbn [Z.eqb Z.to_pos].
    exists (Pos.iter xO p k), (Z.pos k).
    split; [reflexivity|]. split; [exact Hmz|]. split; [lia|exact Hmzlo].
Qed.

Lemma digits_between p lo hi :
  0 <= lo -> 2 ^ lo <= Z.pos p < 2 ^ hi ->
  lo + 1 <= Z.pos (digits2_pos p) <= hi.
Proof.
  intros Hlo0 [Hlo Hhi].
  pose proof (digits2_bounds p) as [Hd1 Hd2].
  set (d := Z.pos (digits2_pos p)) in *.
  assert (1 <= d) by (unfold d; lia).
  split.
  - destruct (Z.le_gt_cases (lo + 1) d) as [|Hlt]; [assumption|].
    assert (2 ^ d <= 2 ^ lo) by (apply Z.pow_le_mono_r; lia). lia.
  - destruct (Z.le_gt_cases d hi) as [|Hgt]; [assumption|].
    assert (2 ^ hi <= 2 ^ (d - 1)) by (apply Z.pow_le_mono_r; lia). lia.
Qed.

(** [int(n * c)] against the exact product, for [n] below [2^49] and a
    normal [c = mc * 2^(-EC)] below one: the result [k] satisfies
    [k <= n * c + 1/16] and [n * c < k + 1]. *)
Lemma int_mul_bounds n mc EC :
  0 < n < 2 ^ 49 -> 2 ^ 52 <= Z.pos mc < 2 ^ 53 -> 53 <= EC <= 55 ->
  exists k,
    Py.int_mul n (S754_finite false mc (- EC)) = inr k /\
    0 <= k /\
    k * 2 ^ EC <= n * Z.pos mc + 2 ^ (EC - 4) /\
    n * Z.pos mc < (k + 1) * 2 ^ EC.
Proof.
  intros Hn Hmc HEC. destruct n as [|p|p]; [lia| |lia].
  destruct (float_of_small_int p) as (mx & a & Hfloat & Hmx & Ha & Hmxr).
  { assert (2 ^ 49 < 2 ^ 53) by reflexivity. lia. }
  assert (Ha4 : 4 <= a).
  { destruct (Z.le_gt_cases 4 a) as [|Hlt]; [assumption|].
    assert (2 ^ a <= 2 ^ 3) by (apply Z.pow_le_mono_r; lia).
    change (2 ^ 3) with 8 in *. change (2 ^ 49) with 562949953421312 in *.
    change (2 ^ 52) with 4503599627370496 in *. nia. }
  unfold Py.int_mul, Py.mul_int_float. rewrite Hfloat. cbn [SFmul xorb].
  assert (Hprod : 2 ^ 104 <= Z.pos (mx * mc) < 2 ^ 106).
  { rewrite Pos2Z.inj_mul.
    change (2 ^ 104) with (2 ^ 52 * 2 ^ 52). change (2 ^ 106) with (2 ^ 53 * 2 ^ 53).
    nia. }
  pose proof (digits_between (mx * mc) 104 106 ltac:(lia) Hprod) as Hd'.
  set (d' := Z.pos (digits2_pos (mx * mc))) in *.
  set (e := - a + - EC).
  pose proof (round_exact_shifts false (mx * mc) e) as Hshift.
  fold d' in Hshift. cbn zeta in Hshift.
  replace (Z.max (d' + e - 53) (-1074)) with (d' + e - 53) in Hshift
    by (unfold e; lia).
  destruct Hshift as (m2 & Hm2 & _ & Hm1 & ->); [lia|].
  set (t := d' + e - 53) in *.
  assert (Ht : -1074 <= t <= -4) by (unfold t, e; lia).
  replace (t - e) with (d' - 53) in * by (unfold t; lia).
  set (N := Z.pos (mx * mc)) in *.
  set (S := 2 ^ (d' - 53)) in *.
  assert (HS : 0 < S) by (apply Z.pow_pos_nonneg; lia).
  assert (Hm1lo : 2 ^ 52 <= N / S).
  { apply Z.div_le_lower_bound; [exact HS|].
    unfold S. rewrite Z.mul_comm, <- Z.pow_add_r by lia.
    pose proof (digits2_bounds (mx * mc)) as [Hlo _]. fold d' N in Hlo.
    replace (52 + (d' - 53)) with (d' - 1) by lia. exact Hlo. }
  set (D := 2 ^ (- t)).
  assert (HD : 0 < D) by (apply Z.pow_pos_nonneg; lia).
  exists (m2 / D).
  assert (Hint : Py.int_of_float (pack false m2 t) = inr (m2 / D)).
  { unfold pack. destruct (Z.eqb_spec m2 0); [lia|].
    destruct (Z.ltb_spec m2 (2 ^ 53)).
    - destruct (Z.leb_spec t 971); [|lia].
      cbn [Py.int_of_float cond_Zopp]. rewrite Z2Pos.id by lia.
      rewrite Z.shiftl_div_pow2 by lia. reflexivity.
    - destruct (Z.leb_spec (t + 1) 971); [|lia].
      cbn [Py.int_of_float cond_Zopp]. rewrite Z2Pos.id by lia.
      rewrite Z.shiftl_div_pow2 by lia.
      assert (m2 = 2 ^ 53) as -> by lia.
      unfold D. replace (- t) with (1 + (- (t + 1))) by lia.
      rewrite Z.pow_add_r by lia.
      change (2 ^ 53) with (2 ^ 1 * 2 ^ 52).
      rewrite Z.div_mul_cancel_l by lia. reflexivity. }
  split; [exact Hint|].
  split; [apply Z.div_pos; lia|].
  assert (HSD : S * D = 2 ^ a * 2 ^ EC).
  { unfold S, D. rewrite <- !Z.pow_add_r by lia. f_equal. unfold t, e. lia. }
  set (A := 2 ^ a) in *. set (E := 2 ^ EC) in *.
  assert (HA : 0 < A) by (apply Z.pow_pos_nonneg; lia).
  assert (HE : 0 < E) by (apply Z.pow_pos_nonneg; lia).
  set (R := 2 ^ (t + EC)).
  assert (HR : 0 < R <= 2 ^ (EC - 4)).
  { split; [apply Z.pow_pos_nonneg; unfold t, e; lia|].
    apply Z.pow_le_mono_r; lia. }
  assert (HSR : S = A * R).
  { unfold S, A, R. rewrite <- Z.pow_add_r by (unfold t, e; lia).
    f_equal. unfold t, e. lia. }
  assert (HN : N = A * (Z.pos p * Z.pos mc)).
  { unfold N. rewrite Pos2Z.inj_mul, Hmx. fold A. ring. }
  pose proof (Z.mul_div_le m2 D HD) as H1.
  pose proof (Z.mul_div_le N S HS) as H2.
  pose proof (Z.mul_succ_div_gt N S HS) as H3.
  pose proof (Z.mul_succ_div_gt m2 D HD) as H4.
  set (k := m2 / D) in *. set (m1 := N / S) in *.
  split.
  - (* k * D * S <= (m1 + 1) * S <= N + S *)
    assert (H5 : k * (S * D) <= N + S) by nia.
    rewrite HSD, HN, HSR in H5.
    assert (H6 : A * (k * E) <= A * (Z.pos p * Z.pos mc + R)) by lia.
    apply Z.mul_le_mono_pos_l in H6; [|exact HA]. lia.
  - (* N < (m1 + 1) * S <= (m2 + 1) * S <= (k + 1) * D * S *)
    assert (H5 : N < (k + 1) * (S * D)) by nia.
    rewrite HSD, HN in H5.
    assert (H6 : A * (Z.pos p * Z.pos mc) < A * ((k + 1) * E)) by lia.
    apply Z.mul_lt_mono_pos_l in H6; [|exact HA]. exact H6.
Qed.

(** The five products against exact arithmetic, below [2^49]: each is
    the floor of the exact product or one less. *)
Lemma int_mul_literals n :
  0 < n < 2 ^ 49 ->
  exists k7 k75 k2 k3,
    Py.int_mul n Py.f0_7 = inr k7 /\ 10 * k7 <= 7 * n <= 10 * k7 + 10 /\
    Py.int_mul n Py.f0_75 = inr k75 /\ 4 * k75 <= 3 * n < 4 * k75 + 4 /\
    Py.int_mul n Py.f0_2 = inr k2 /\ 5 * k2 <= n <= 5 * k2 + 5 /\
    Py.int_mul n Py.f0_3 = inr k3 /\ 10 * k3 <= 3 * n <= 10 * k3 + 10.
Proof.
  intros Hn.
  assert (H49 : 2 ^ 49 = 562949953421312) by reflexivity.
  destruct (int_mul_bounds n 6305039478318694 53) as (k7 & E7 & _ & U7 & L7);
    [lia|split; [discriminate|reflexivity]|lia|].
  destruct (int_mul_bounds n 6755399441055744 53) as (k75 & E75 & _ & U75 & L75);
    [lia|split; [discriminate|reflexivity]|lia|].
  destruct (int_mul_bounds n 7205759403792794 55) as (k2 & E2 & _ & U2 & L2);
    [lia|split; [discriminate|reflexivity]|lia|].
  destruct (int_mul_bounds n 5404319552844595 54) as (k3 & E3 & _ & U3 & L3);
    [lia|split; [discriminate|reflexivity]|lia|].
  exists k7, k75, k2, k3.
  change (2 ^ 53) with 9007199254740992 in *.
  change (2 ^ 54) with 18014398509481984 in *.
  change (2 ^ 55) with 36028797018963968 in *.
  change (2 ^ (53 - 4)) with 562949953421312 in *.
  change (2 ^ (54 - 4)) with 1125899906842624 in *.
  change (2 ^ (55 - 4)) with 2251799813685248 in *.
  rewrite H49 in Hn.
  repeat split; try assumption; lia.
Qed.

Lemma geometry_bounds size g :
  4 <= size < 2 ^ 49 -> icon_geometry size = inr g ->
  10 * bubble_size g <= 7 * size <= 10 * bubble_size g + 10 /\
  4 * bubble_height g <= 3 * bubble_size g < 4 * bubble_height g + 4 /\
  5 * tail_size g <= bubble_size g <= 5 * tail_size g + 5 /\
  10 * tail_offset g <= 3 * bubble_size g <= 10 * tail_offset g + 10.
Proof.
  intros Hs Hg. apply icon_geometry_inv in Hg as (H7 & H75 & _ & H2 & H3).
  destruct (int_mul_literals size) as (k7 & _ & _ & _ & E7 & B7 & _); [lia|].
  assert (k7 = bubble_size g) as -> by congruence.
  assert (H49 : 2 ^ 49 = 562949953421312) by reflexivity.
  destruct (int_mul_literals (bubble_size g))
    as (_ & k75 & k2 & k3 & _ & _ & E75 & B75 & E2 & B2 & E3 & B3); [lia|].
  assert (k75 = bubble_height g) as -> by congruence.
  assert (k2 = tail_size g) as -> by congruence.
  assert (k3 = tail_offset g) as -> by congruence.
  auto.
Qed.

Lemma on_canvas_large size g :
  4 <= size < 2 ^ 49 -> icon_geometry size = inr g ->
  forall img, forallb (call_on_canvas size) (icon_calls size g img) = true.
Proof.
  intros Hs Hg img.
  pose proof (geometry_bounds size g Hs Hg) as (B7 & B75 & B2 & B3).
  destruct g as [bs bh cr ts to]. cbn [bubble_size bubble_height tail_size tail_offset] in *.
  clear Hg.
  unfold icon_calls, call_on_canvas, bubble_call, tail_call, dot_call, margin,
    box_on_canvas, on_canvas.
  cbn [forallb dc_shape fst snd bubble_size bubble_height tail_size tail_offset
       corner_radius].
  assert (H49 : 2 ^ 49 = 562949953421312) by reflexivity. rewrite H49 in Hs.
  rewrite !andb_true_iff, !Z.leb_le.
  repeat split; Z.div_mod_to_equations; lia.
Qed.

(** X6: below [2^49], [int(n * 0.7)] is the floor of the exact [7n/10], or
    one less when [7n/10] is an integer (as at [n = 90], where it is 62);
    [int(n * 0.75)] is the floor of [3n/4]. *)
Theorem products_against_exact n k7 k75 :
  0 < n < 2 ^ 49 ->
  Py.int_mul n Py.f0_7 = inr k7 ->
  Py.int_mul n Py.f0_75 = inr k75 ->
  (k7 = 7 * n / 10 \/ (k7 = 7 * n / 10 - 1 /\ (7 * n) mod 10 = 0)) /\
  k75 = 3 * n / 4.
Proof.
  intros Hn H7 H75.
  destruct (int_mul_literals n Hn)
    as (k7' & k75' & _ & _ & E7 & B7 & E75 & B75 & _).
  assert (k7' = k7) as -> by congruence.
  assert (k75' = k75) as -> by congruence.
  split; Z.div_mod_to_equations; lia.
Qed.

(** ** Rounding up, and the exact radius *)

Lemma iter_pos_nat {A} (f : A -> A) p : forall x,
  SpecFloat.iter_pos f p x = Nat.iter (Pos.to_nat p) f x.
Proof.
  induction p as [p IH|p IH|]; intros x; cbn [SpecFloat.iter_pos].
  - rewrite !IH, Pos2Nat.inj_xI, <- Nat.iter_add, <- Nat.iter_succ_r.
    f_equal. lia.
  - rewrite !IH, Pos2Nat.inj_xO, <- Nat.iter_add. f_equal. lia.
  - reflexivity.
Qed.

(** The last [k] bits of [m] are zero if its last [k - 1] bits and bit
    [k - 1] are. *)
Lemma mod_pow2_succ m k :
  0 <= k ->
  m mod 2 ^ (k + 1) = m mod 2 ^ k + 2 ^ k * (if Z.testbit m k then 1 else 0).
Proof.
  intros Hk. rewrite Z.pow_add_r by lia. change (2 ^ 1) with 2.
  rewrite Z.rem_mul_r by lia.
  f_equal. f_equal.
  destruct (Z.testbit m k) eqn:Hb.
  - apply Z.testbit_true in Hb; [exact Hb|exact Hk].
  - apply Z.testbit_false in Hb; [exact Hb|exact Hk].
Qed.

(** After [n + 1] shifts of [m]: the quotient by [2^(n+1)], bit [n] as
    round bit, and as sticky bit whether a lower bit is set. *)
Lemma shr_iter_nat m n :
  0 <= m ->
  Nat.iter (S n) shr_1 {| shr_m := m; shr_r := false; shr_s := false |}
  = {| shr_m := m / 2 ^ (Z.of_nat n + 1);
       shr_r := Z.testbit m (Z.of_nat n);
       shr_s := negb (m mod 2 ^ Z.of_nat n =? 0) |}.
Proof.
  intros Hm. induction n as [|n IH].
  - unfold Nat.iter. cbn [nat_rect].
    assert (E : shr_1 {| shr_m := m; shr_r := false; shr_s := false |}
                = {| shr_m := m / 2; shr_r := Z.odd m; shr_s := false |}).
    { pose proof (shr_1_m {| shr_m := m; shr_r := false; shr_s := false |} Hm) as H1.
      pose proof (shr_1_r {| shr_m := m; shr_r := false; shr_s := false |} Hm) as H2.
      assert (H3 : shr_s (shr_1 {| shr_m := m; shr_r := false; shr_s := false |})
                   = false) by (destruct m as [|[q|q|]|[q|q|]]; reflexivity).
      destruct (shr_1 _) as [m' r' s']. cbn [shr_m shr_r shr_s] in *. subst.
      reflexivity. }
    rewrite E. change (Z.of_nat 0) with 0. change (2 ^ (0 + 1)) with 2.
    rewrite Z.bit0_odd. change (2 ^ 0) with 1. rewrite Z.mod_1_r. reflexivity.
  - rewrite Nat.iter_succ, IH.
    set (q := m / 2 ^ (Z.of_nat n + 1)).
    assert (Hq : 0 <= q) by (apply Z.div_pos; lia).
    pose proof (shr_1_m {| shr_m := q; shr_r := Z.testbit m (Z.of_nat n);
                           shr_s := negb (m mod 2 ^ Z.of_nat n =? 0) |} Hq) as H1.
    pose proof (shr_1_r {| shr_m := q; shr_r := Z.testbit m (Z.of_nat n);
                           shr_s := negb (m mod 2 ^ Z.of_nat n =? 0) |} Hq) as H2.
    assert (H3 : shr_s (shr_1 {| shr_m := q; shr_r := Z.testbit m (Z.of_nat n);
                           shr_s := negb (m mod 2 ^ Z.of_nat n =? 0) |})
                 = Z.testbit m (Z.of_nat n) || negb (m mod 2 ^ Z.of_nat n =? 0)).
    { destruct q as [|[q'|q'|]|[q'|q'|]]; reflexivity. }
    destruct (shr_1 _) as [m' r' s']. cbn [shr_m shr_r shr_s] in *. subst.
    f_equal.
    + unfold q. rewrite Z.div_div by lia. f_equal.
      rewrite Nat2Z.inj_succ.
      replace (Z.succ (Z.of_nat n) + 1) with (Z.of_nat n + 1 + 1) by lia.
      rewrite (Z.pow_add_r 2 (Z.of_nat n + 1) 1) by lia. reflexivity.
    + unfold q. rewrite <- Z.bit0_odd, Z.div_pow2_bits by lia.
      f_equal. lia.
    + rewrite Nat2Z.inj_succ, <- Z.add_1_r, mod_pow2_succ by lia.
      pose proof (Z.mod_pos_bound m (2 ^ Z.of_nat n) ltac:(lia)) as Hb.
      assert (0 < 2 ^ Z.of_nat n) by lia.
      destruct (Z.testbit m (Z.of_nat n)); cbn [orb].
      * symmetry. apply negb_true_iff, Z.eqb_neq. lia.
      * rewrite Z.mul_0_r, Z.add_0_r. reflexivity.
Qed.

Lemma round_nearest_even_above m mrs :
  shr_r mrs = true -> shr_s mrs = true ->
  round_nearest_even m (loc_of_shr_record mrs) = m + 1.
Proof. destruct mrs as [m' r s]. cbn. intros -> ->. reflexivity. Qed.

(** A remainder above one half rounds up. *)
Lemma round_exact_shifts_above s m e :
  let t := Z.max (Z.pos (digits2_pos m) + e - 53) (-1074) in
  e < t ->
  2 ^ (t - e) < 2 * (Z.pos m mod 2 ^ (t - e)) ->
  binary_round_aux Py.prec Py.emax s (Z.pos m) e loc_Exact
  = pack s (Z.pos m / 2 ^ (t - e) + 1) t.
Proof.
  intros t Ht Habove.
  destruct (round_exact_shifts s m e Ht) as (m2 & Hm2 & _ & Hm1 & _).
  fold t in Hm2, Hm1.
  unfold binary_round_aux.
  destruct (shr_fexp Py.prec Py.emax (Z.pos m) e loc_Exact) as [mrs' e'] eqn:E.
  unfold shr_fexp in E. rewrite fexp_eq in E.
  cbn [Zdigits2 shr_record_of_loc] in E. fold t in E. unfold shr in E.
  destruct (t - e) as [|n|n] eqn:En; [lia| |lia].
  injection E as <- <-.
  rewrite iter_pos_nat.
  destruct (Pos2Nat.is_succ n) as [k Hk]. rewrite Hk.
  rewrite shr_iter_nat by lia.
  assert (Hn : Z.pos n = Z.of_nat k + 1) by lia.
  rewrite Hn in *. cbn [shr_m].
  rewrite mod_pow2_succ in Habove by lia.
  pose proof (Z.mod_pos_bound (Z.pos m) (2 ^ Z.of_nat k) ltac:(lia)) as Hb.
  rewrite Z.pow_add_r in Habove by lia. change (2 ^ 1) with 2 in Habove.
  rewrite round_nearest_even_above; cbn [shr_r shr_s].
  - replace (e + (Z.of_nat k + 1)) with t by lia.
    apply pack_spec; [|unfold t; lia].
    split; [apply Z.add_nonneg_nonneg; [apply Z.div_pos|]; lia|lia].
  - destruct (Z.testbit (Z.pos m) (Z.of_nat k)); [reflexivity|lia].
  - apply negb_true_iff, Z.eqb_neq.
    destruct (Z.testbit (Z.pos m) (Z.of_nat k)); lia.
Qed.

(** [int(n * c)] for [n] below [2^48] and a normal [c = mc * 2^(-EC)]
    below one, in terms of the exact product [n * mc]: it is shifted
    right by some [u], rounded to nearest ([m2]), and the integer part
    is taken. *)
Lemma int_mul_rounding n mc EC :
  0 < n < 2 ^ 48 -> 2 ^ 52 <= Z.pos mc < 2 ^ 53 -> 53 <= EC <= 55 ->
  exists u m2,
    0 <= u <= EC - 5 /\
    Py.int_mul n (S754_finite false mc (- EC)) = inr (m2 / 2 ^ (EC - u)) /\
    n * Z.pos mc / 2 ^ u <= m2 <= n * Z.pos mc / 2 ^ u + 1 /\
    (2 ^ u < 2 * ((n * Z.pos mc) mod 2 ^ u) -> m2 = n * Z.pos mc / 2 ^ u + 1) /\
    n * Z.pos mc / 2 ^ u < 2 ^ 53.
Proof.
  intros Hn Hmc HEC. destruct n as [|p|p]; [lia| |lia].
  destruct (float_of_small_int p) as (mx & a & Hfloat & Hmx & Ha & Hmxr).
  { assert (2 ^ 48 < 2 ^ 53) by reflexivity. lia. }
  assert (Ha5 : 5 <= a).
  { destruct (Z.le_gt_cases 5 a) as [|Hlt]; [assumption|].
    assert (2 ^ a <= 2 ^ 4) by (apply Z.pow_le_mono_r; lia).
    change (2 ^ 4) with 16 in *. change (2 ^ 48) with 281474976710656 in *.
    change (2 ^ 52) with 4503599627370496 in *. nia. }
  unfold Py.int_mul, Py.mul_int_float. rewrite Hfloat. cbn [SFmul xorb].
  assert (Hprod : 2 ^ 104 <= Z.pos (mx * mc) < 2 ^ 106).
  { rewrite Pos2Z.inj_mul.
    change (2 ^ 104) with (2 ^ 52 * 2 ^ 52). change (2 ^ 106) with (2 ^ 53 * 2 ^ 53).
    nia. }
  pose proof (digits_between (mx * mc) 104 106 ltac:(lia) Hprod) as Hd'.
  set (e := - a + - EC).
  set (Q := Z.pos p * Z.pos mc).
  assert (Hround : exists m2,
            Z.pos (mx * mc) / 2 ^ (Z.pos (digits2_pos (mx * mc)) - 53) <= m2
            <= Z.pos (mx * mc) / 2 ^ (Z.pos (digits2_pos (mx * mc)) - 53) + 1 /\
            (2 ^ (Z.pos (digits2_pos (mx * mc)) - 53)
             < 2 * (Z.pos (mx * mc) mod 2 ^ (Z.pos (digits2_pos (mx * mc)) - 53)) ->
             m2 = Z.pos (mx * mc) / 2 ^ (Z.pos (digits2_pos (mx * mc)) - 53) + 1) /\
            Z.pos (mx * mc) / 2 ^ (Z.pos (digits2_pos (mx * mc)) - 53) < 2 ^ 53 /\
            binary_round_aux Py.prec Py.emax false (Z.pos (mx * mc)) e loc_Exact
            = pack false m2 (Z.pos (digits2_pos (mx * mc)) + e - 53)).
  { set (d' := Z.pos (digits2_pos (mx * mc))) in *.
    assert (Et : Z.max (d' + e - 53) (-1074) = d' + e - 53) by (unfold e; lia).
    assert (Ete : d' + e - 53 - e = d' - 53) by lia.
    destruct (Z.lt_ge_cases (2 ^ (d' - 53))
                (2 * (Z.pos (mx * mc) mod 2 ^ (d' - 53)))) as [Hab|Hbe].
    - pose proof (round_exact_shifts_above false (mx * mc) e) as Hup.
      pose proof (round_exact_shifts false (mx * mc) e) as Hsh.
      fold d' in Hup, Hsh. cbn zeta in Hup, Hsh. rewrite Et, Ete in Hup, Hsh.
      destruct Hsh as (_ & _ & _ & Hm1 & _); [lia|].
      exists (Z.pos (mx * mc) / 2 ^ (d' - 53) + 1).
      split; [lia|]. split; [reflexivity|]. split; [exact Hm1|].
      apply Hup; [lia|exact Hab].
    - pose proof (round_exact_shifts false (mx * mc) e) as Hsh.
      fold d' in Hsh. cbn zeta in Hsh. rewrite Et, Ete in Hsh.
      destruct Hsh as (m2 & Hm2 & _ & Hm1 & Hpack); [lia|].
      exists m2. split; [exact Hm2|]. split; [lia|]. split; [exact Hm1|exact Hpack]. }
  destruct Hround as (m2 & Hm2 & Habove & Hm1 & ->).
  set (d' := Z.pos (digits2_pos (mx * mc))) in *.
  set (t := d' + e - 53) in *.
  assert (Ht : -1074 <= t <= -5) by (unfold t, e; lia).
  set (N := Z.pos (mx * mc)) in *.
  set (S := 2 ^ (d' - 53)) in *.
  assert (HS : 0 < S) by (apply Z.pow_pos_nonneg; lia).
  assert (Hm1lo : 2 ^ 52 <= N / S).
  { apply Z.div_le_lower_bound; [exact HS|].
    unfold S. rewrite Z.mul_comm, <- Z.pow_add_r by lia.
    pose proof (digits2_bounds (mx * mc)) as [Hlo _]. fold d' N in Hlo.
    replace (52 + (d' - 53)) with (d' - 1) by lia. exact Hlo. }
  set (D := 2 ^ (- t)).
  assert (HD : 0 < D) by (apply Z.pow_pos_nonneg; lia).
  assert (Hint : Py.int_of_float (pack false m2 t) = inr (m2 / D)).
  { unfold pack. destruct (Z.eqb_spec m2 0); [lia|].
    destruct (Z.ltb_spec m2 (2 ^ 53)).
    - destruct (Z.leb_spec t 971); [|lia].
      cbn [Py.int_of_float cond_Zopp]. rewrite Z2Pos.id by lia.
      rewrite Z.shiftl_div_pow2 by lia. reflexivity.
    - destruct (Z.leb_spec (t + 1) 971); [|lia].
      cbn [Py.int_of_float cond_Zopp]. rewrite Z2Pos.id by lia.
      rewrite Z.shiftl_div_pow2 by lia.
      assert (m2 = 2 ^ 53) as -> by lia.
      unfold D. replace (- t) with (1 + (- (t + 1))) by lia.
      rewrite Z.pow_add_r by lia.
      change (2 ^ 53) with (2 ^ 1 * 2 ^ 52).
      rewrite Z.div_mul_cancel_l by lia. reflexivity. }
  set (u := t + EC).
  assert (Hu : 0 <= u <= EC - 5) by (unfold u, t, e; lia).
  set (A := 2 ^ a) in *.
  assert (HA : 0 < A) by (apply Z.pow_pos_nonneg; lia).
  assert (HR : 0 < 2 ^ u) by (apply Z.pow_pos_nonneg; lia).
  assert (HSR : S = A * 2 ^ u).
  { unfold S, A. rewrite <- Z.pow_add_r by lia. f_equal. unfold u, t, e. lia. }
  assert (HN : N = A * Q).
  { unfold N, Q. rewrite Pos2Z.inj_mul, Hmx. fold A. ring. }
  assert (Hdiv : N / S = Q / 2 ^ u).
  { rewrite HN, HSR. apply Z.div_mul_cancel_l; lia. }
  assert (Hmod : N mod S = A * (Q mod 2 ^ u)).
  { rewrite HN, HSR. apply Z.mul_mod_distr_l; lia. }
  exists u, m2.
  replace (EC - u) with (- t) by (unfold u; lia). fold D.
  split; [exact Hu|]. split; [exact Hint|].
  rewrite Hdiv in Hm2, Habove, Hm1. rewrite Hmod, HSR in Habove.
  fold Q. split; [exact Hm2|]. split; [|exact Hm1].
  intros Hab. apply Habove. nia.
Qed.

(** Below [2^48], [int(n * 0.15)] is the floor of the exact [3n/20]:
    when [3n/20] is an integer the double product lies less than half
    a unit in the last place below it and rounds back to it. *)
Lemma int_mul_0_15_exact n k :
  0 <= n < 2 ^ 48 -> Py.int_mul n Py.f0_15 = inr k -> k = 3 * n / 20.
Proof.
  intros Hn Hk.
  destruct (Z.eq_dec n 0) as [->|Hn0].
  { vm_compute in Hk. injection Hk as <-. reflexivity. }
  destruct (int_mul_rounding n 5404319552844595 55)
    as (u & m2 & Hu & Hint & Hm2 & Habove & Hm1); [lia|split; [discriminate|reflexivity]|lia|].
  assert (Hk' : Py.int_mul n (S754_finite false 5404319552844595 (- (55)))
                = inr k) by exact Hk.
  rewrite Hk' in Hint. injection Hint as ->. clear Hk'.
  set (Q := n * 5404319552844595) in *.
  set (R := 2 ^ u) in *. set (D := 2 ^ (55 - u)).
  assert (HR : 0 < R) by (apply Z.pow_pos_nonneg; lia).
  assert (HD : 0 < D) by (apply Z.pow_pos_nonneg; lia).
  assert (HRD : R * D = 36028797018963968).
  { unfold R, D. rewrite <- Z.pow_add_r by lia.
    replace (u + (55 - u)) with 55 by lia. reflexivity. }
  assert (HR50 : R <= 1125899906842624).
  { unfold R. change 1125899906842624 with (2 ^ 50).
    apply Z.pow_le_mono_r; lia. }
  change (2 ^ 48) with 281474976710656 in Hn.
  change (2 ^ 53) with 9007199254740992 in Hm1.
  pose proof (Z.mul_div_le m2 D HD) as H1.
  pose proof (Z.mul_succ_div_gt m2 D HD) as H2.
  pose proof (Z.mul_div_le Q R HR) as H3.
  pose proof (Z.mul_succ_div_gt Q R HR) as H4.
  set (k := m2 / D) in *. set (m1 := Q / R) in *.
  assert (HQ : 20 * Q = 3 * n * (R * D) - 4 * n) by (rewrite HRD; unfold Q; ring).
  assert (Hup : 20 * k <= 3 * n).
  { assert (k * (R * D) <= Q + R) by nia. rewrite HRD in *. lia. }
  assert (Hlo : 3 * n <= 20 * (k + 1)).
  { assert (Q < (k + 1) * (R * D)) by nia. rewrite HRD in *. lia. }
  destruct (Z.eq_dec (3 * n) (20 * (k + 1))) as [Heq|Hne];
    [|Z.div_mod_to_equations; lia].
  exfalso.
  (* [n = 20 m] and [3 m = k + 1]: the product rounds up to [3 m] *)
  assert (Hm : exists m, n = 20 * m /\ k + 1 = 3 * m).
  { exists (n / 20). Z.div_mod_to_equations. lia. }
  destruct Hm as (m & Hnm & Hkm).
  assert (HQm : Q = (3 * m * D - 1) * R + (R - 4 * m)).
  { assert (E : 20 * Q = 20 * ((3 * m * D - 1) * R + (R - 4 * m))); [|lia].
    rewrite HQ, Hnm.
    replace (20 * ((3 * m * D - 1) * R + (R - 4 * m)))
      with (60 * m * (R * D) - 80 * m) by ring.
    ring. }
  assert (HR12 : 12 * m <= R).
  { assert (Q < 9007199254740992 * R) by nia.
    assert (20 * Q < 20 * (9007199254740992 * R)) by lia.
    rewrite HQ, HRD, Hnm in *. lia. }
  assert (Hm1eq : m1 = 3 * m * D - 1).
  { unfold m1. symmetry. apply Z.div_unique with (r := R - 4 * m); [lia|].
    rewrite HQm. ring. }
  assert (Hmodeq : Q mod R = R - 4 * m).
  { symmetry. apply Z.mod_unique with (q := 3 * m * D - 1); [lia|].
    rewrite HQm. ring. }
  assert (Hm2eq : m2 = 3 * m * D).
  { rewrite Habove; [lia|]. rewrite Hmodeq. lia. }
  assert (k = 3 * m).
  { unfold k. rewrite Hm2eq. apply Z.div_mul. lia. }
  lia.
Qed.

(** ** Painting keeps the canvas *)

Lemma blank_has_side size c : 0 <= size -> has_side size (blank size c).
Proof.
  intros Hs. unfold has_side, blank. cbn [im_size im_data].
  split; [reflexivity|]. split.
  - rewrite length_replicate. lia.
  - apply Forall_replicate. rewrite length_replicate. lia.
Qed.

Lemma blank_one_colour size c :
  Forall (Forall (fun c' => c' = c)) (im_data (blank size c)).
Proof.
  unfold blank. cbn [im_data]. apply Forall_replicate, Forall_replicate.
  reflexivity.
Qed.

Section Properties.

Variable rasterize : shape -> Z -> Z -> bool.
Variable encode : string -> Image -> list Byte.byte.

Lemma fill_shape_run l sh name ink im h f out dr :
  getrgb name = Some ink -> h !! l = Some im ->
  fill_shape rasterize {| draw_im := l |} sh name
    {| heap := h; fs := f; stdout := out; drawn := dr |}
  = (inr tt,
     {| heap := <[l := paint rasterize sh ink im]> h;
        fs := f; stdout := out;
        drawn := dr ++ [{| dc_image := l; dc_shape := sh; dc_fill := ink |}] |}).
Proof.
  intros Hc Hl. unfold fill_shape. cbn [draw_im heap]. now rewrite Hc, Hl.
Qed.

Lemma create_ok size g w :
  0 <= size <= INT_MAX -> icon_geometry size = inr g ->
  create_linkedin_chat_icon rasterize size w
  = (inr (fresh (dom (heap w))), rendered rasterize size g w).
Proof.
  intros Hs Hg. apply icon_geometry_inv in Hg as (E1 & E2 & E3 & E4 & E5).
  destruct g as [bs bh cr ts to]. cbn [bubble_size bubble_height corner_radius
    tail_size tail_offset] in *.
  destruct w as [h f out dr].
  unfold create_linkedin_chat_icon.
  erewrite bind_inr by (apply Image_new_run; [exact Hs|exact getrgb_blue]).
  unfold ImageDraw_Draw.
  erewrite bind_inr by reflexivity.
  rewrite E1. erewrite bind_inr by reflexivity.
  rewrite E2. erewrite bind_inr by reflexivity.
  rewrite E3. erewrite bind_inr by reflexivity.
  unfold rounded_rectangle, polygon, ellipse.
  erewrite bind_inr
    by (apply fill_shape_run; [exact getrgb_white|apply lookup_insert_eq]).
  rewrite E4. erewrite bind_inr by reflexivity.
  rewrite E5. erewrite bind_inr by reflexivity.
  erewrite bind_inr
    by (apply fill_shape_run; [exact getrgb_white|apply lookup_insert_eq]).
  unfold range. cbn [seq map for_each].
  erewrite bind_inr.
  2:{ erewrite bind_inr
        by (apply fill_shape_run; [exact getrgb_blue|apply lookup_insert_eq]).
      erewrite bind_inr
        by (apply fill_shape_run; [exact getrgb_blue|apply lookup_insert_eq]).
      erewrite bind_inr
        by (apply fill_shape_run; [exact getrgb_blue|apply lookup_insert_eq]).
      reflexivity. }
  unfold ret, rendered. cbn [heap fs stdout drawn].
  rewrite !insert_insert_eq. rewrite <- !app_assoc.
  reflexivity.
Qed.

Lemma create_raises size e w :
  0 <= size <= INT_MAX -> icon_geometry size = inl e ->
  fst (create_linkedin_chat_icon rasterize size w) = inl e.
Proof.
  intros Hs Hg. unfold icon_geometry in Hg. destruct w as [h f out dr].
  unfold create_linkedin_chat_icon.
  erewrite bind_inr by (apply Image_new_run; [exact Hs|exact getrgb_blue]).
  unfold ImageDraw_Draw. erewrite bind_inr by reflexivity.
  destruct (Py.int_mul size Py.f0_7) as [e1|bs] eqn:E1;
    [injection Hg as <-; reflexivity|].
  erewrite bind_inr by reflexivity.
  destruct (Py.int_mul bs Py.f0_75) as [e2|bh] eqn:E2;
    [injection Hg as <-; reflexivity|].
  erewrite bind_inr by reflexivity.
  destruct (Py.int_mul bs Py.f0_15) as [e3|cr] eqn:E3;
    [injection Hg as <-; reflexivity|].
  erewrite bind_inr by reflexivity.
  unfold rounded_rectangle.
  erewrite bind_inr
    by (apply fill_shape_run; [exact getrgb_white|apply lookup_insert_eq]).
  destruct (Py.int_mul bs Py.f0_2) as [e4|ts] eqn:E4;
    [injection Hg as <-; reflexivity|].
  erewrite bind_inr by reflexivity.
  destruct (Py.int_mul bs Py.f0_3) as [e5|to] eqn:E5;
    [injection Hg as <-; reflexivity|discriminate].
Qed.

Lemma create_negative size w :
  size < 0 ->
  create_linkedin_chat_icon rasterize size w = (inl Py.ValueError, w).
Proof.
  intros Hs. unfold create_linkedin_chat_icon.
  erewrite bind_inl by (apply Image_new_negative; exact Hs). reflexivity.
Qed.

Lemma create_too_wide size w :
  INT_MAX < size ->
  create_linkedin_chat_icon rasterize size w = (inl Py.OverflowError, w).
Proof.
  intros Hs. unfold create_linkedin_chat_icon.
  erewrite bind_inl
    by (eapply Image_new_too_wide; [exact Hs|exact getrgb_blue]).
  reflexivity.
Qed.

Lemma create_returns_inv size w img w' :
  create_linkedin_chat_icon rasterize size w = (inr img, w') ->
  0 <= size <= INT_MAX /\
  exists g, icon_geometry size = inr g /\
            img = fresh (dom (heap w)) /\ w' = rendered rasterize size g w.
Proof.
  intros Hrun.
  destruct (Z.lt_ge_cases size 0) as [Hneg|Hs0].
  { rewrite create_negative in Hrun by exact Hneg. discriminate. }
  destruct (Z.lt_ge_cases INT_MAX size) as [Hwide|Hs1].
  { rewrite create_too_wide in Hrun by exact Hwide. discriminate. }
  assert (Hs : 0 <= size <= INT_MAX) by lia.
  split; [exact Hs|].
  destruct (icon_geometry size) as [e|g] eqn:Hg.
  - pose proof (create_raises size e w Hs Hg) as Hf.
    rewrite Hrun in Hf. discriminate.
  - rewrite (create_ok size g w Hs Hg) in Hrun.
    injection Hrun as <- <-. eauto.
Qed.

Lemma paint_has_side size sh ink im :
  has_side size im -> has_side size (paint rasterize sh ink im).
Proof.
  intros (Hsz & Hrows & Hcols). unfold has_side, paint. cbn [im_size im_data].
  split; [exact Hsz|]. split.
  - rewrite length_imap. exact Hrows.
  - rewrite Forall_lookup in Hcols |- *. intros y row Hrow.
    rewrite list_lookup_imap in Hrow.
    destruct (im_data im !! y) as [row0|] eqn:E; [|discriminate].
    injection Hrow as <-. rewrite length_imap. exact (Hcols y row0 E).
Qed.

Lemma paint_colours (P : color -> Prop) sh ink im :
  P ink -> Forall (Forall P) (im_data im) ->
  Forall (Forall P) (im_data (paint rasterize sh ink im)).
Proof.
  intros Hink Him. unfold paint. cbn [im_data].
  rewrite Forall_lookup in Him |- *. intros y row Hrow.
  rewrite list_lookup_imap in Hrow.
  destruct (im_data im !! y) as [row0|] eqn:E; [|discriminate].
  injection Hrow as <-. specialize (Him y row0 E).
  rewrite Forall_lookup in Him |- *. intros x c Hc.
  rewrite list_lookup_imap in Hc.
  destruct (row0 !! x) as [c0|] eqn:E0; [|discriminate].
  injection Hc as <-. destruct (rasterize sh _ _); [exact Hink|exact (Him x c0 E0)].
Qed.

Lemma icon_image_has_side size g :
  0 <= size -> has_side size (icon_image rasterize size g).
Proof.
  intros Hs. unfold icon_image, icon_calls. cbn [fold_left]. unfold paint_call.
  repeat apply paint_has_side. apply blank_has_side. exact Hs.
Qed.

Lemma icon_image_two_coloured size g :
  two_coloured (icon_image rasterize size g).
Proof.
  unfold two_coloured, icon_image, icon_calls. cbn [fold_left]. unfold paint_call.
  cbn [dc_fill bubble_call tail_call dot_call].
  repeat (apply paint_colours; [auto|]).
  eapply Forall_impl; [apply blank_one_colour|].
  intros row Hrow. eapply Forall_impl; [exact Hrow|]. cbn. auto.
Qed.

Lemma rendered_lookup size g w :
  heap (rendered rasterize size g w) !! fresh (dom (heap w))
  = Some (icon_image rasterize size g).
Proof. unfold rendered. cbn [heap]. apply lookup_insert_eq. Qed.

(** ** The renderer *)

(** C1, as amended: for every positive [size] for which [Image.new]
    returns the canvas of side [size] (it raises [OverflowError] for a
    side above [INT_MAX]), [create_linkedin_chat_icon size] returns an
    image whose declared width and height are [size] and whose pixel
    buffer has [size] rows of [size] pixels: once the canvas exists, no
    later step raises. *)
Theorem icon_has_requested_size size w canvas w1 :
  0 < size ->
  Image_new (size, size) "#0A66C2" w = (inr canvas, w1) ->
  exists img w' im,
    create_linkedin_chat_icon rasterize size w = (inr img, w') /\
    heap w' !! img = Some im /\
    has_side size im.
Proof.
  intros Hs Hnew. apply Image_new_returns in Hnew.
  destruct INT_MAX_small as [_ Hmax].
  destruct (icon_geometry_total size) as (g & Hg & _); [lia|].
  exists (fresh (dom (heap w))), (rendered rasterize size g w),
    (icon_image rasterize size g).
  split; [apply create_ok; [exact Hnew|exact Hg]|].
  split; [apply rendered_lookup|].
  apply icon_image_has_side. lia.
Qed.

(** C2: what a call of [create_linkedin_chat_icon size] leaves to its
    caller, the exception raised or the pixel data of the image
    returned, is the same in any two worlds: it depends on [size]
    alone, not on the heap, the file system or what was printed or
    drawn before. *)
Theorem rendering_depends_on_size_alone size w1 w2 :
  outcome (create_linkedin_chat_icon rasterize size w1)
  = outcome (create_linkedin_chat_icon rasterize size w2).
Proof.
  destruct (Z.lt_ge_cases size 0) as [Hneg|Hs0];
    [rewrite !create_negative by exact Hneg; reflexivity|].
  destruct (Z.lt_ge_cases INT_MAX size) as [Hwide|Hs1];
    [rewrite !create_too_wide by exact Hwide; reflexivity|].
  assert (Hs : 0 <= size <= INT_MAX) by lia.
  - destruct (icon_geometry size) as [e|g] eqn:Hg.
    + pose proof (create_raises size e w1 Hs Hg) as H1.
      pose proof (create_raises size e w2 Hs Hg) as H2.
      destruct (create_linkedin_chat_icon rasterize size w1) as [r1 v1].
      destruct (create_linkedin_chat_icon rasterize size w2) as [r2 v2].
      cbn in H1, H2. subst. reflexivity.
    + rewrite !(create_ok size g) by assumption.
      cbn [outcome]. rewrite !rendered_lookup. reflexivity.
Qed.

(** C3, as amended: when [create_linkedin_chat_icon size] returns, for
    a positive [size], its first draw call is a rounded rectangle in
    white whose box is
    [(margin, margin, margin + bubble_edge, margin + height)] where
    [bubble_edge = int(size * 0.7)], the product being that of doubles:
    it is the floor of the exact [7 * size / 10], or one less, and one
    less only when [7 * size / 10] is an integer;
    [margin = (size - bubble_edge) // 2];
    [height] is the floor of the exact [bubble_edge * 0.75] and the
    radius is the floor of the exact [bubble_edge * 0.15]. No other
    rounded rectangle is drawn. *)
Theorem bubble_box size w img w' :
  0 < size ->
  create_linkedin_chat_icon rasterize size w = (inr img, w') ->
  exists bubble_edge rest,
    Py.int_mul size Py.f0_7 = inr bubble_edge /\
    (bubble_edge = 7 * size / 10 \/
     (bubble_edge = 7 * size / 10 - 1 /\ (7 * size) mod 10 = 0)) /\
    (let margin := (size - bubble_edge) / 2 in
     drawn w' = (drawn w ++
       {| dc_image := img;
          dc_shape := RoundedRectangle
                        (margin, margin, margin + bubble_edge,
                         margin + 3 * bubble_edge / 4)
                        (3 * bubble_edge / 20);
          dc_fill := white |} :: rest)%list) /\
    existsb is_rounded_rectangle rest = false.
Proof.
  intros Hs Hrun.
  apply create_returns_inv in Hrun as (Hr & g & Hg & -> & ->).
  apply icon_geometry_inv in Hg as (H7 & H75 & H15 & _ & _).
  assert (H31 : INT_MAX = 2147483647) by reflexivity.
  assert (H48 : 2 ^ 48 = 281474976710656) by reflexivity.
  assert (H49 : 2 ^ 49 = 562949953421312) by reflexivity.
  destruct (int_mul_literals size) as (k7 & _ & _ & _ & E7 & B7 & _); [lia|].
  assert (k7 = bubble_size g) as -> by congruence.
  assert (Hh : bubble_height g = 3 * bubble_size g / 4 /\
               corner_radius g = 3 * bubble_size g / 20).
  { destruct (Z.eq_dec (bubble_size g) 0) as [E0|Hne].
    - rewrite E0 in *.
      assert (E75 : Py.int_mul 0 Py.f0_75 = inr 0) by (vm_compute; reflexivity).
      assert (E15 : Py.int_mul 0 Py.f0_15 = inr 0) by (vm_compute; reflexivity).
      rewrite E75 in H75. rewrite E15 in H15.
      injection H75 as <-. injection H15 as <-. split; reflexivity.
    - destruct (int_mul_literals (bubble_size g))
        as (_ & k75 & _ & _ & _ & _ & E75 & B75 & _); [lia|].
      assert (k75 = bubble_height g) as -> by congruence.
      split; [Z.div_mod_to_equations; lia|].
      apply int_mul_0_15_exact; [lia|exact H15]. }
  destruct Hh as [Hbh Hcr].
  exists (bubble_size g). eexists.
  split; [exact H7|].
  split; [Z.div_mod_to_equations; lia|].
  split.
  - cbn zeta. rewrite <- Hbh, <- Hcr. reflexivity.
  - reflexivity.
Qed.

(** C4: when [create_linkedin_chat_icon size] returns, for a positive
    [size], every pixel of the image is the background colour
    [#0A66C2] or the bubble colour [#FFFFFF]. *)
Theorem icon_is_two_coloured size w img w' im :
  0 < size ->
  create_linkedin_chat_icon rasterize size w = (inr img, w') ->
  heap w' !! img = Some im ->
  getrgb "#0A66C2" = Some linkedin_blue /\
  getrgb "#FFFFFF" = Some white /\
  two_coloured im.
Proof.
  intros Hs Hrun Him.
  apply create_returns_inv in Hrun as (_ & g & Hg & -> & ->).
  rewrite rendered_lookup in Him. injection Him as <-.
  split; [reflexivity|]. split; [reflexivity|].
  apply icon_image_two_coloured.
Qed.

(** C5: when [create_linkedin_chat_icon size] returns, for a positive
    [size], its last three draw calls, and its only ellipses, are three
    dots in the colour the canvas was filled with, of radius
    [max(1, size // 32)], which is 1 when [size < 32]; their centres
    are at height [top + bubble_edge // 3] and at the abscissas
    [cx - spacing], [cx], [cx + spacing] where
    [cx = left + bubble_edge // 2] and [spacing = bubble_edge // 6]. *)
Theorem three_dots size w img w' :
  0 < size ->
  create_linkedin_chat_icon rasterize size w = (inr img, w') ->
  exists bubble_edge before,
    Py.floor_mul size Py.f0_7 = inr bubble_edge /\
    (let left := (size - bubble_edge) / 2 in
     let top := left in
     let radius := Z.max 1 (size / 32) in
     let y := top + bubble_edge / 3 in
     let cx := left + bubble_edge / 2 in
     let spacing := bubble_edge / 6 in
     let dot x :=
       {| dc_image := img;
          dc_shape := Ellipse (x - radius, y - radius, x + radius, y + radius);
          dc_fill := linkedin_blue |} in
     drawn w'
     = (drawn w ++ before ++ [dot (cx - spacing); dot cx; dot (cx + spacing)])%list /\
     existsb is_ellipse before = false /\
     1 <= radius /\ (size < 32 -> radius = 1) /\
     heap w' !! img
     = Some (fold_left (paint_call rasterize)
               (before ++ [dot (cx - spacing); dot cx; dot (cx + spacing)])%list
               (blank size linkedin_blue))).
Proof.
  intros Hs Hrun.
  apply create_returns_inv in Hrun as (_ & g & Hg & -> & ->).
  apply icon_geometry_floor in Hg as (_ & H7 & _); [|lia].
  exists (bubble_size g),
    [bubble_call size g (fresh (dom (heap w)));
     tail_call size g (fresh (dom (heap w)))].
  split; [exact H7|]. cbn zeta.
  assert (E0 : forall cx sp : Z, cx - sp + 0 * sp = cx - sp) by (intros; lia).
  assert (E1 : forall cx sp : Z, cx - sp + 1 * sp = cx) by (intros; lia).
  assert (E2 : forall cx sp : Z, cx - sp + 2 * sp = cx + sp) by (intros; lia).
  split.
  { unfold rendered, icon_calls, dot_call, margin. cbn [drawn app].
    rewrite E0, E1, E2. reflexivity. }
  split; [reflexivity|].
  split; [lia|].
  split.
  { intros Hsmall. rewrite Z.div_small by lia. reflexivity. }
  rewrite rendered_lookup. unfold icon_image, icon_calls, dot_call, margin.
  cbn [app]. rewrite E0, E1, E2. reflexivity.
Qed.

(** C6: when [create_linkedin_chat_icon size] returns, for a positive
    [size], its second draw call, right after the bubble and in the
    same colour, is a polygon of three vertices [(tail_x, bottom)],
    [(tail_x + tail_size, bottom)] and
    [(tail_x + tail_size // 2, bottom + tail_size // 2)], where
    [tail_size = floor(bubble_edge * 0.2)],
    [tail_x = left + floor(bubble_edge * 0.3)] and [bottom] is the
    bubble's bottom edge. No other polygon is drawn. *)
Theorem bubble_tail size w img w' :
  0 < size ->
  create_linkedin_chat_icon rasterize size w = (inr img, w') ->
  exists bubble_edge height tail_size offset bubble rest,
    Py.floor_mul size Py.f0_7 = inr bubble_edge /\
    Py.floor_mul bubble_edge Py.f0_75 = inr height /\
    Py.floor_mul bubble_edge Py.f0_2 = inr tail_size /\
    Py.floor_mul bubble_edge Py.f0_3 = inr offset /\
    (let left := (size - bubble_edge) / 2 in
     let bottom := left + height in
     let tail_x := left + offset in
     drawn w' = (drawn w ++
       bubble ::
       {| dc_image := img;
          dc_shape := Polygon [(tail_x, bottom);
                               (tail_x + tail_size, bottom);
                               (tail_x + tail_size / 2, bottom + tail_size / 2)];
          dc_fill := dc_fill bubble |} :: rest)%list /\
     (exists radius,
        dc_shape bubble
        = RoundedRectangle (left, left, left + bubble_edge, bottom) radius)) /\
    existsb is_polygon rest = false.
Proof.
  intros Hs Hrun.
  apply create_returns_inv in Hrun as (_ & g & Hg & -> & ->).
  apply icon_geometry_floor in Hg as (_ & H7 & H75 & _ & H2 & H3); [|lia].
  exists (bubble_size g), (bubble_height g), (tail_size g), (tail_offset g),
    (bubble_call size g (fresh (dom (heap w)))).
  eexists. repeat (split; [eassumption|]).
  split.
  - cbn zeta. split; [reflexivity|]. eexists. reflexivity.
  - reflexivity.
Qed.

(** C10: for each of the sizes 16, 32, 64 and 128, in any world, the
    renderer returns, and every coordinate of each of its five draw
    calls (the box of the rounded rectangle, the vertices of the
    triangle, the boxes of the three ellipses) lies between 0 and
    [size - 1]. *)
Theorem driver_icons_on_canvas :
  Forall (fun size =>
            forall w, exists img w' calls,
              create_linkedin_chat_icon rasterize size w = (inr img, w') /\
              drawn w' = (drawn w ++ calls)%list /\
              length calls = 5%nat /\
              forallb (call_on_canvas size) calls = true)
         [16; 32; 64; 128].
Proof.
  repeat constructor; intros w;
    match goal with
    | |- context [create_linkedin_chat_icon _ ?size _] =>
        destruct (icon_geometry size) as [e|g] eqn:Hg;
          [vm_compute in Hg; discriminate|];
        exists (fresh (dom (heap w))), (rendered rasterize size g w),
          (icon_calls size g (fresh (dom (heap w))));
        split; [apply create_ok; [unfold INT_MAX; lia|exact Hg]|];
        split; [reflexivity|]; split; [reflexivity|];
        vm_compute in Hg; injection Hg as <-; reflexivity
    end.
Qed.

(** ** The driver *)

Lemma main_unfold :
  main rasterize encode
  = bind (makedirs "src/icons" true)
      (fun _ => for_each [16; 32; 64; 128] (write_icon rasterize encode "src/icons")).
Proof. reflexivity. Qed.

Lemma for_each_app {A} (xs ys : list A) body w :
  for_each (xs ++ ys) body w
  = match for_each xs body w with
    | (inr _, w1) => for_each ys body w1
    | (inl e, w1) => (inl e, w1)
    end.
Proof.
  revert w. induction xs as [|x xs IH]; intros w; [reflexivity|].
  cbn [for_each app]. unfold bind.
  destruct (body x w) as [[e|[]] w1]; [reflexivity|]. apply IH.
Qed.

(** *** Quiet computations *)

Lemma quiet_ret {A} (a : A) : quiet (ret a).
Proof. intros w. split; reflexivity. Qed.

Lemma quiet_lift {A} (r : Py.exn + A) : quiet (lift r).
Proof. intros w. destruct r; split; reflexivity. Qed.

Lemma quiet_bind {A B} (m : M A) (k : A -> M B) :
  quiet m -> (forall a, quiet (k a)) -> quiet (bind m k).
Proof.
  intros Hm Hk w. unfold bind. specialize (Hm w).
  destruct (m w) as [[e|a] w1]; cbn [snd] in Hm |- *; [exact Hm|].
  destruct (Hk a w1) as [H1 H2]. destruct Hm as [H3 H4].
  split; congruence.
Qed.

Lemma quiet_for_each {A} (xs : list A) body :
  (forall x, quiet (body x)) -> quiet (for_each xs body).
Proof.
  intros Hb. induction xs as [|x xs IH]; cbn [for_each].
  - apply quiet_ret.
  - apply quiet_bind; [apply Hb|]. intros _. exact IH.
Qed.

Lemma quiet_Image_new size name : quiet (Image_new size name).
Proof.
  intros w. unfold Image_new.
  destruct (_ || _); [split; reflexivity|].
  destruct (getrgb name); [|split; reflexivity].
  destruct (_ || _); split; reflexivity.
Qed.

Lemma quiet_fill_shape draw sh name : quiet (fill_shape rasterize draw sh name).
Proof.
  intros w. unfold fill_shape.
  destruct (getrgb name); [|split; reflexivity].
  destruct (heap w !! draw_im draw); split; reflexivity.
Qed.

(** The renderer reads and writes no file and prints nothing. *)
Lemma quiet_create size : quiet (create_linkedin_chat_icon rasterize size).
Proof.
  unfold create_linkedin_chat_icon, rounded_rectangle, polygon, ellipse,
    ImageDraw_Draw.
  repeat first
    [ apply quiet_bind; [|intros ?]
    | apply quiet_Image_new | apply quiet_fill_shape | apply quiet_lift
    | apply quiet_ret | apply quiet_for_each; intros ? ].
Qed.

(** *** Creating the directory *)

Lemma parent_node_src w : parent_node "src" w = Some Dir.
Proof. reflexivity. Qed.

Lemma parent_node_icons w : parent_node "src/icons" w = fs w !! "src".
Proof. reflexivity. Qed.

Lemma makedirs_icons_dir w :
  (forall c, fs w !! "src" <> Some (File c)) ->
  (forall c, fs w !! "src/icons" <> Some (File c)) ->
  makedirs "src/icons" true w = (inr tt, set_fs (with_icons_dir (fs w)) w).
Proof.
  intros Hsrc Hicons. unfold makedirs.
  change (heads _ _) with ["src"]. cbn [makedirs_rec].
  unfold bind, try_except, path_exists, path_isdir, mkdir, ret, raise,
    parent_node, with_icons_dir, set_fs.
  change (dirname "src") with "". change (dirname "src/icons") with "src".
  change (String.eqb "" "") with true. change (String.eqb "src" "") with false.
  destruct w as [h f out dr]. cbn [fs] in Hsrc, Hicons.
  destruct (f !! "src") as [[|c]|] eqn:Es; [| destruct (Hsrc c); reflexivity |];
    (destruct (f !! "src/icons") as [[|c]|] eqn:Ei;
       [| destruct (Hicons c); reflexivity |]);
    repeat first
      [ rewrite Es | rewrite Ei | rewrite lookup_insert_eq
      | rewrite lookup_insert_ne by discriminate
      | progress cbn [fs heap stdout drawn negb orb] ].
  - rewrite (insert_id f "src" Dir Es), (insert_id f "src/icons" Dir Ei).
    reflexivity.
  - rewrite (insert_id f "src" Dir Es). reflexivity.
  - rewrite (insert_id (<["src" := Dir]> f) "src/icons" Dir)
      by (rewrite lookup_insert_ne by discriminate; exact Ei).
    reflexivity.
  - reflexivity.
Qed.

(** *** Writing one icon *)

Lemma write_file_ok p data w :
  parent_node p w = Some Dir -> fs w !! p <> Some Dir ->
  write_file p data w = (inr tt, set_fs (<[p := File data]> (fs w)) w).
Proof.
  intros Hp Hnd. unfold write_file. rewrite Hp.
  destruct (fs w !! p) as [[|c]|]; [contradiction| |]; reflexivity.
Qed.

Lemma write_file_inv p data w r w1 :
  write_file p data w = (r, w1) ->
  match r with
  | inl _ => w1 = w
  | inr _ => w1 = set_fs (<[p := File data]> (fs w)) w
  end.
Proof.
  unfold write_file.
  destruct (parent_node p w) as [[|c]|]; try (intros [= <- <-]; reflexivity).
  destruct (fs w !! p) as [[|c]|]; intros [= <- <-]; reflexivity.
Qed.

Lemma rendered_fs size g w : fs (rendered rasterize size g w) = fs w.
Proof. reflexivity. Qed.

Lemma write_icon_ok size g w :
  0 <= size <= INT_MAX -> icon_geometry size = inr g ->
  parent_node (logo_path size) w = Some Dir ->
  fs w !! logo_path size <> Some Dir ->
  write_icon rasterize encode "src/icons" size w
  = (inr tt,
     add_stdout (created_line size)
       (set_fs (with_icon rasterize encode (fs w) size)
          (rendered rasterize size g w))).
Proof.
  intros Hs Hg Hp Hnd. unfold write_icon.
  erewrite bind_inr by (apply create_ok; eassumption).
  change ("src/icons" ++ "/logo-" ++ Py.str size ++ ".png")%string
    with (logo_path size).
  erewrite bind_inr.
  2:{ unfold Image_save. rewrite rendered_lookup.
      apply write_file_ok; [exact Hp|exact Hnd]. }
  unfold print, with_icon. rewrite Hg. reflexivity.
Qed.

(** Whatever [write_icon] does, it writes at most its own file: on
    success the file system gains the icon and one line is printed; on
    failure neither changes. *)
Lemma write_icon_inv size w r w' :
  write_icon rasterize encode "src/icons" size w = (r, w') ->
  match r with
  | inr _ => fs w' = with_icon rasterize encode (fs w) size /\
             stdout w' = (stdout w ++ [created_line size])%list
  | inl _ => fs w' = fs w /\ stdout w' = stdout w
  end.
Proof.
  unfold write_icon, bind.
  pose proof (quiet_create size w) as [Hfs Hout].
  destruct (create_linkedin_chat_icon rasterize size w) as [[e|img] w1] eqn:Hc.
  - intros [= <- <-]. cbn [snd] in *. auto.
  - apply create_returns_inv in Hc as (_ & g & Hg & -> & ->).
    change ("src/icons" ++ "/logo-" ++ Py.str size ++ ".png")%string
      with (logo_path size).
    unfold Image_save. rewrite rendered_lookup.
    destruct (write_file _ _ _) as [[e|[]] w2] eqn:Hw;
      apply write_file_inv in Hw; subst w2.
    + intros [= <- <-]. split; reflexivity.
    + unfold print. intros [= <- <-]. unfold with_icon. rewrite Hg.
      split; reflexivity.
Qed.

Lemma write_icons_inv sizes : forall w w',
  for_each sizes (write_icon rasterize encode "src/icons") w = (inr tt, w') ->
  fs w' = with_icons rasterize encode (fs w) sizes /\
  stdout w' = (stdout w ++ map created_line sizes)%list.
Proof.
  induction sizes as [|s sizes IH]; intros w w'; cbn [for_each].
  - intros [= <-]. cbn. rewrite app_nil_r. auto.
  - unfold bind.
    destruct (write_icon rasterize encode "src/icons" s w) as [[e|[]] w1] eqn:Hs;
      [discriminate|].
    apply write_icon_inv in Hs as [Hfs Hout].
    intros Hrest. apply IH in Hrest as [Hfs' Hout'].
    unfold with_icons in *. cbn [fold_left map].
    rewrite Hfs', Hout', Hfs, Hout, <- app_assoc. auto.
Qed.

(** *** The loop *)

Lemma driver_sizes_ok : Forall driver_size [16; 32; 64; 128].
Proof.
  repeat constructor; try (unfold INT_MAX; lia); try reflexivity;
    eexists; vm_compute; reflexivity.
Qed.

Lemma with_icon_lookup f size p :
  with_icon rasterize encode f size !! p
  = match icon_geometry size with
    | inr g => if decide (logo_path size = p)
               then Some (File (encode "PNG" (icon_image rasterize size g)))
               else f !! p
    | inl _ => f !! p
    end.
Proof.
  unfold with_icon. destruct (icon_geometry size); [reflexivity|].
  apply lookup_insert.
Qed.

Lemma write_icons_ok sizes : forall w,
  Forall driver_size sizes ->
  fs w !! "src/icons" = Some Dir ->
  Forall (fun s => fs w !! logo_path s <> Some Dir) sizes ->
  exists w', for_each sizes (write_icon rasterize encode "src/icons") w
             = (inr tt, w').
Proof.
  induction sizes as [|s sizes IH]; intros w Hsizes Hdir Hfree;
    cbn [for_each]; [eexists; reflexivity|].
  inversion Hsizes as [|? ? (Hs & (g & Hg) & Hdn) Hsizes']; subst.
  inversion Hfree as [|? ? Hfree1 Hfree']; subst.
  assert (Hp : parent_node (logo_path s) w = Some Dir).
  { unfold parent_node. rewrite Hdn. exact Hdir. }
  erewrite bind_inr by (apply write_icon_ok; eassumption).
  assert (Hne : logo_path s <> "src/icons").
  { intros E. rewrite E in Hdn. discriminate Hdn. }
  apply IH; [exact Hsizes'| |].
  - cbn [fs add_stdout set_fs]. rewrite with_icon_lookup, Hg.
    destruct (decide (logo_path s = "src/icons")); [contradiction|exact Hdir].
  - cbn [fs add_stdout set_fs].
    eapply Forall_impl; [exact Hfree'|]. cbn beta. intros s' Hs'.
    rewrite with_icon_lookup, Hg.
    destruct (decide (logo_path s = logo_path s')); [discriminate|exact Hs'].
Qed.

Lemma with_icons_dir_lookup f p :
  with_icons_dir f !! p
  = if decide (p = "src/icons") then Some Dir
    else if decide (p = "src") then Some Dir else f !! p.
Proof.
  unfold with_icons_dir. rewrite !lookup_insert.
  repeat case_decide; congruence.
Qed.

(** The whole run, from a world the driver can write in. *)
Lemma main_ok w :
  writable w ->
  exists w',
    main rasterize encode w = (inr tt, w') /\
    fs w' = with_icons rasterize encode (with_icons_dir (fs w)) [16; 32; 64; 128] /\
    stdout w' = (stdout w ++ map created_line [16; 32; 64; 128])%list.
Proof.
  intros (Hsrc & Hicons & Hfree). rewrite main_unfold.
  erewrite bind_inr by (apply makedirs_icons_dir; assumption).
  destruct (write_icons_ok [16; 32; 64; 128]
              (set_fs (with_icons_dir (fs w)) w)) as [w' Hrun].
  - exact driver_sizes_ok.
  - cbn [fs set_fs]. rewrite with_icons_dir_lookup. reflexivity.
  - cbn [fs set_fs]. eapply Forall_impl; [exact Hfree|]. cbn beta.
    intros s Hs. rewrite with_icons_dir_lookup.
    repeat case_decide; [discriminate|discriminate|exact Hs].
  - exists w'. split; [exact Hrun|].
    apply write_icons_inv in Hrun. exact Hrun.
Qed.

Lemma logo_paths :
  map logo_path [16; 32; 64; 128]
  = ["src/icons/logo-16.png"; "src/icons/logo-32.png";
     "src/icons/logo-64.png"; "src/icons/logo-128.png"].
Proof. reflexivity. Qed.

(** The file system after a full run, path by path. *)
Lemma driver_fs_lookup f p :
  exists g16 g32 g64 g128,
    icon_geometry 16 = inr g16 /\ icon_geometry 32 = inr g32 /\
    icon_geometry 64 = inr g64 /\ icon_geometry 128 = inr g128 /\
    with_icons rasterize encode (with_icons_dir f) [16; 32; 64; 128] !! p
    = if decide (p = "src/icons/logo-128.png")
      then Some (File (encode "PNG" (icon_image rasterize 128 g128)))
      else if decide (p = "src/icons/logo-64.png")
      then Some (File (encode "PNG" (icon_image rasterize 64 g64)))
      else if decide (p = "src/icons/logo-32.png")
      then Some (File (encode "PNG" (icon_image rasterize 32 g32)))
      else if decide (p = "src/icons/logo-16.png")
      then Some (File (encode "PNG" (icon_image rasterize 16 g16)))
      else if decide (p = "src/icons") then Some Dir
      else if decide (p = "src") then Some Dir
      else f !! p.
Proof.
  destruct (icon_geometry 16) as [|g16] eqn:G16; [vm_compute in G16; discriminate|].
  destruct (icon_geometry 32) as [|g32] eqn:G32; [vm_compute in G32; discriminate|].
  destruct (icon_geometry 64) as [|g64] eqn:G64; [vm_compute in G64; discriminate|].
  destruct (icon_geometry 128) as [|g128] eqn:G128; [vm_compute in G128; discriminate|].
  exists g16, g32, g64, g128. repeat (split; [reflexivity|]).
  unfold with_icons. cbn [fold_left].
  rewrite !with_icon_lookup, G16, G32, G64, G128, with_icons_dir_lookup.
  change (logo_path 16) with "src/icons/logo-16.png".
  change (logo_path 32) with "src/icons/logo-32.png".
  change (logo_path 64) with "src/icons/logo-64.png".
  change (logo_path 128) with "src/icons/logo-128.png".
  repeat case_decide; congruence.
Qed.

(** C7: from a world where the driver can write, [main] returns; the
    directory [src/icons] exists afterwards; for the sizes 16, 32, 64
    and 128 the file [src/icons/logo-<size>.png] holds the PNG encoding
    of the image [create_linkedin_chat_icon size] returns, which has
    side [size]; one line [Created src/icons/logo-<size>.png] is printed
    per file, in that order; no other path of the file system changes
    apart from the directories [src] and [src/icons]. *)
Theorem driver_writes_four_icons w :
  writable w ->
  exists w',
    main rasterize encode w = (inr tt, w') /\
    fs w' !! "src/icons" = Some Dir /\
    Forall2
      (fun size path =>
         exists im,
           (forall v, outcome (create_linkedin_chat_icon rasterize size v)
                      = inr (Some im)) /\
           has_side size im /\
           fs w' !! path = Some (File (encode "PNG" im)))
      [16; 32; 64; 128]
      ["src/icons/logo-16.png"; "src/icons/logo-32.png";
       "src/icons/logo-64.png"; "src/icons/logo-128.png"] /\
    stdout w'
    = (stdout w ++
         ["Created src/icons/logo-16.png"; "Created src/icons/logo-32.png";
          "Created src/icons/logo-64.png"; "Created src/icons/logo-128.png"])%list /\
    (forall p,
        ~ In p ["src"; "src/icons";
                "src/icons/logo-16.png"; "src/icons/logo-32.png";
                "src/icons/logo-64.png"; "src/icons/logo-128.png"] ->
        fs w' !! p = fs w !! p).
Proof.
  intros Hw. destruct (main_ok w Hw) as (w' & Hrun & Hfs & Hout).
  exists w'. split; [exact Hrun|].
  pose proof (fun p => driver_fs_lookup (fs w) p) as Hlook.
  rewrite <- Hfs in Hlook.
  split.
  { destruct (Hlook "src/icons") as (? & ? & ? & ? & _ & _ & _ & _ & ->).
    reflexivity. }
  split.
  { assert (Hicon : forall size g, 0 <= size <= INT_MAX ->
              icon_geometry size = inr g ->
              forall v, outcome (create_linkedin_chat_icon rasterize size v)
                        = inr (Some (icon_image rasterize size g))).
    { intros size g Hs Hg v. rewrite (create_ok size g v Hs Hg).
      cbn [outcome]. rewrite rendered_lookup. reflexivity. }
    repeat (apply List.Forall2_cons || apply List.Forall2_nil); cbn beta.
    - destruct (Hlook "src/icons/logo-16.png")
        as (g & ? & ? & ? & G & _ & _ & _ & ->).
      exists (icon_image rasterize 16 g).
      split; [apply Hicon; [unfold INT_MAX; lia|exact G]|].
      split; [apply icon_image_has_side; lia|reflexivity].
    - destruct (Hlook "src/icons/logo-32.png")
        as (? & g & ? & ? & _ & G & _ & _ & ->).
      exists (icon_image rasterize 32 g).
      split; [apply Hicon; [unfold INT_MAX; lia|exact G]|].
      split; [apply icon_image_has_side; lia|reflexivity].
    - destruct (Hlook "src/icons/logo-64.png")
        as (? & ? & g & ? & _ & _ & G & _ & ->).
      exists (icon_image rasterize 64 g).
      split; [apply Hicon; [unfold INT_MAX; lia|exact G]|].
      split; [apply icon_image_has_side; lia|reflexivity].
    - destruct (Hlook "src/icons/logo-128.png")
        as (? & ? & ? & g & _ & _ & _ & G & ->).
      exists (icon_image rasterize 128 g).
      split; [apply Hicon; [unfold INT_MAX; lia|exact G]|].
      split; [apply icon_image_has_side; lia|reflexivity]. }
  split; [exact Hout|].
  intros p Hp. destruct (Hlook p) as (? & ? & ? & ? & _ & _ & _ & _ & ->).
  cbn [In] in Hp. repeat case_decide; try reflexivity; exfalso; apply Hp; auto 10.
Qed.

(** *** [os.makedirs] touches the file system only *)

Lemma set_fs_set_fs f f' w : set_fs f (set_fs f' w) = set_fs f w.
Proof. reflexivity. Qed.

Lemma fs_only_ret {A} (a : A) : fs_only (ret a).
Proof. intros w. exists (fs w). destruct w; reflexivity. Qed.

Lemma fs_only_raise {A} e : fs_only (@raise A e).
Proof. intros w. exists (fs w). destruct w; reflexivity. Qed.

Lemma fs_only_bind {A B} (m : M A) (k : A -> M B) :
  fs_only m -> (forall a, fs_only (k a)) -> fs_only (bind m k).
Proof.
  intros Hm Hk w. unfold bind. destruct (Hm w) as [f Hf].
  destruct (m w) as [[e|a] w1]; cbn [snd] in *; subst w1; [eauto|].
  destruct (Hk a (set_fs f w)) as [f' Hf']. exists f'.
  rewrite Hf'. apply set_fs_set_fs.
Qed.

Lemma fs_only_try_except {A} (m : M A) h :
  fs_only m -> (forall e, fs_only (h e)) -> fs_only (try_except m h).
Proof.
  intros Hm Hh w. unfold try_except. destruct (Hm w) as [f Hf].
  destruct (m w) as [[e|a] w1]; cbn [snd] in *; subst w1; [|eauto].
  destruct (Hh e (set_fs f w)) as [f' Hf']. exists f'.
  rewrite Hf'. apply set_fs_set_fs.
Qed.

Lemma fs_only_mkdir p : fs_only (mkdir p).
Proof.
  intros w. unfold mkdir.
  destruct (parent_node p w) as [[|c]|]; try apply (fs_only_ret tt w).
  destruct (fs w !! p); [apply (fs_only_ret tt w)|]. eexists. reflexivity.
Qed.

Lemma fs_only_path_exists p : fs_only (path_exists p).
Proof. intros w. exists (fs w). destruct w; reflexivity. Qed.

Lemma fs_only_path_isdir p : fs_only (path_isdir p).
Proof. intros w. exists (fs w). destruct w; reflexivity. Qed.

Lemma fs_only_makedirs name exist_ok : fs_only (makedirs name exist_ok).
Proof.
  unfold makedirs. generalize (heads (String.length name) name) as hs.
  intros hs. revert name.
  induction hs as [|head hs IH]; intros name; cbn [makedirs_rec].
  - apply fs_only_bind; [apply fs_only_ret|]. intros _.
    apply fs_only_try_except; [apply fs_only_mkdir|]. intros e.
    apply fs_only_bind; [apply fs_only_path_isdir|]. intros d.
    destruct (_ || _); [apply fs_only_raise|apply fs_only_ret].
  - apply fs_only_bind.
    + apply fs_only_bind; [apply fs_only_path_exists|]. intros [|].
      * apply fs_only_ret.
      * apply fs_only_try_except; [apply IH|].
        intros e. destruct e; try apply fs_only_raise. apply fs_only_ret.
    + intros _.
      apply fs_only_try_except; [apply fs_only_mkdir|]. intros e.
      apply fs_only_bind; [apply fs_only_path_isdir|]. intros d.
      destruct (_ || _); [apply fs_only_raise|apply fs_only_ret].
Qed.

(** C8: from a world where the driver can write, a first run of [main]
    and a second one right after it both return, and the second leaves
    the file system exactly as the first left it, the same four files
    with the same content; it only prints its four lines again. *)
Theorem driver_is_idempotent w :
  writable w ->
  exists w1 w2,
    main rasterize encode w = (inr tt, w1) /\
    main rasterize encode w1 = (inr tt, w2) /\
    fs w2 = fs w1 /\
    stdout w2 = (stdout w1 ++ map created_line [16; 32; 64; 128])%list.
Proof.
  intros Hw. destruct (main_ok w Hw) as (w1 & Hrun1 & Hfs1 & Hout1).
  pose proof (fun p => driver_fs_lookup (fs w) p) as Hlook.
  rewrite <- Hfs1 in Hlook.
  assert (Hw1 : writable w1).
  { split; [|split].
    - intros c. destruct (Hlook "src") as (? & ? & ? & ? & _ & _ & _ & _ & ->).
      discriminate.
    - intros c.
      destruct (Hlook "src/icons") as (? & ? & ? & ? & _ & _ & _ & _ & ->).
      discriminate.
    - repeat constructor.
      + destruct (Hlook (logo_path 16)) as (? & ? & ? & ? & _ & _ & _ & _ & ->).
        discriminate.
      + destruct (Hlook (logo_path 32)) as (? & ? & ? & ? & _ & _ & _ & _ & ->).
        discriminate.
      + destruct (Hlook (logo_path 64)) as (? & ? & ? & ? & _ & _ & _ & _ & ->).
        discriminate.
      + destruct (Hlook (logo_path 128)) as (? & ? & ? & ? & _ & _ & _ & _ & ->).
        discriminate. }
  destruct (main_ok w1 Hw1) as (w2 & Hrun2 & Hfs2 & Hout2).
  exists w1, w2. repeat (split; [assumption|]). split; [|exact Hout2].
  rewrite Hfs2. apply map_eq. intros p.
  destruct (driver_fs_lookup (fs w1) p)
    as (g16 & g32 & g64 & g128 & G16 & G32 & G64 & G128 & ->).
  destruct (Hlook p) as (h16 & h32 & h64 & h128 & H16 & H32 & H64 & H128 & Hp).
  assert (g16 = h16) as -> by congruence.
  assert (g32 = h32) as -> by congruence.
  assert (g64 = h64) as -> by congruence.
  assert (g128 = h128) as -> by congruence.
  repeat case_decide; congruence.
Qed.

(** C9: if creating the directory raises [e], or if the directory is
    created and, after the icons of the sizes [done] are written, the
    next one raises [e] (in rendering or in writing the file), then
    [main] raises that same [e], in the world the failing step left:
    one line was printed for each size of [done] and for no other, and
    the file system is the one directory creation left plus the files of
    [done]; nothing is removed and no later size is tried. *)
Theorem driver_fails_fast w done e w1 :
  first_failure rasterize encode w done e w1 ->
  main rasterize encode w = (inl e, w1) /\
  stdout w1 = (stdout w ++ map created_line done)%list /\
  (forall w0, makedirs "src/icons" true w = (inr tt, w0) ->
              fs w1 = with_icons rasterize encode (fs w0) done).
Proof.
  intros [[-> Hmk]|(w0 & v & s & todo & Hmk & Hsizes & Hdone & Hfail)];
    rewrite main_unfold.
  - split; [apply bind_inl; exact Hmk|].
    destruct (fs_only_makedirs "src/icons" true w) as [f Hf].
    rewrite Hmk in Hf. cbn [snd] in Hf. subst w1.
    split; [cbn; now rewrite app_nil_r|].
    intros w0 Hw0. rewrite Hmk in Hw0. discriminate.
  - destruct (fs_only_makedirs "src/icons" true w) as [f Hf].
    rewrite Hmk in Hf. cbn [snd] in Hf.
    split.
    { erewrite bind_inr by exact Hmk. rewrite Hsizes, for_each_app, Hdone.
      cbn [for_each]. apply bind_inl. exact Hfail. }
    apply write_icons_inv in Hdone as [Hfs Hout].
    apply write_icon_inv in Hfail as [Hfs' Hout'].
    split.
    { rewrite Hout', Hout, Hf. reflexivity. }
    intros w0' Hw0'. rewrite Hmk in Hw0'. injection Hw0' as <-.
    rewrite Hfs', Hfs. reflexivity.
Qed.

(** ** Further properties of the renderer *)

(** X1: a call of the renderer ends as its call of [Image.new] ends:
    it raises exactly when [Image.new] does, with the same exception,
    and otherwise returns the reference [Image.new] returned. No step
    after the canvas is created can raise, the five float products in
    particular. *)
Theorem renderer_ends_as_Image_new size w :
  fst (create_linkedin_chat_icon rasterize size w)
  = fst (Image_new (size, size) "#0A66C2" w).
Proof.
  destruct (Z.lt_ge_cases size 0) as [Hneg|Hs0].
  { rewrite create_negative, Image_new_negative by exact Hneg. reflexivity. }
  destruct (Z.lt_ge_cases INT_MAX size) as [Hwide|Hs1].
  { rewrite create_too_wide by exact Hwide.
    erewrite Image_new_too_wide by (try exact Hwide; exact getrgb_blue).
    reflexivity. }
  assert (Hs : 0 <= size <= INT_MAX) by lia.
  destruct INT_MAX_small as [_ Hmax].
  destruct (icon_geometry_total size) as (g & Hg & _); [lia|].
  rewrite (create_ok size g w Hs Hg). destruct w as [h f out dr].
  erewrite Image_new_run by (try exact Hs; exact getrgb_blue).
  reflexivity.
Qed.

(** X2: the renderer reads and writes no file and prints nothing,
    whether it returns or raises. *)
Theorem renderer_leaves_files_alone size w :
  fs (snd (create_linkedin_chat_icon rasterize size w)) = fs w /\
  stdout (snd (create_linkedin_chat_icon rasterize size w)) = stdout w.
Proof. apply quiet_create. Qed.

(** X3: a call that returns has allocated one image, at a reference that
    was free, has left every other image as it was, and has made five
    draw calls, all on the image it returns. *)
Theorem renderer_draws_on_its_own_image size w img w' :
  create_linkedin_chat_icon rasterize size w = (inr img, w') ->
  heap w !! img = None /\
  (forall l, l <> img -> heap w' !! l = heap w !! l) /\
  exists calls,
    drawn w' = (drawn w ++ calls)%list /\
    length calls = 5%nat /\
    Forall (fun c => dc_image c = img) calls.
Proof.
  intros Hrun. apply create_returns_inv in Hrun as (_ & g & _ & -> & ->).
  split.
  { apply not_elem_of_dom. apply is_fresh. }
  split.
  { intros l Hl. unfold rendered. cbn [heap].
    rewrite lookup_insert_ne by congruence. reflexivity. }
  exists (icon_calls size g (fresh (dom (heap w)))).
  split; [reflexivity|]. split; [reflexivity|].
  repeat constructor.
Qed.

(** X4: in a call that returns, every box handed to Pillow is ordered: the
    rounded rectangle has [x0 <= x1], [y0 <= y1] and a non-negative
    radius, and each ellipse has [x0 < x1] and [y0 < y1]. *)
Theorem renderer_boxes_are_ordered size w img w' :
  create_linkedin_chat_icon rasterize size w = (inr img, w') ->
  exists calls,
    drawn w' = (drawn w ++ calls)%list /\
    forallb ordered_call calls = true.
Proof.
  intros Hrun. apply create_returns_inv in Hrun as (Hs & g & Hg & -> & ->).
  apply icon_geometry_inv in Hg as (H7 & H75 & H15 & _ & _).
  pose proof (int_mul_nonneg _ _ _ _ (proj1 Hs) H7) as Hbs.
  pose proof (int_mul_nonneg _ _ _ _ Hbs H75) as Hbh.
  pose proof (int_mul_nonneg _ _ _ _ Hbs H15) as Hcr.
  exists (icon_calls size g (fresh (dom (heap w)))).
  split; [reflexivity|].
  unfold icon_calls, ordered_call, bubble_call, tail_call, dot_call.
  cbn [forallb dc_shape andb].
  repeat match goal with
         | |- context [?a <=? ?b] =>
             destruct (Z.leb_spec a b); [|exfalso; lia]
         | |- context [?a <? ?b] =>
             destruct (Z.ltb_spec a b); [|exfalso; lia]
         end.
  reflexivity.
Qed.

(** X5: in a call that returns, for a size of 4 or more, every
    coordinate of the five draw calls lies between 0 and [size - 1]:
    nothing is clipped at the edge of the canvas. *)
Theorem renderer_stays_on_canvas size w img w' :
  4 <= size ->
  create_linkedin_chat_icon rasterize size w = (inr img, w') ->
  exists calls,
    drawn w' = (drawn w ++ calls)%list /\
    forallb (call_on_canvas size) calls = true.
Proof.
  intros Hs Hrun.
  apply create_returns_inv in Hrun as (Hr & g & Hg & -> & ->).
  destruct INT_MAX_small as [H49 _].
  exists (icon_calls size g (fresh (dom (heap w)))).
  split; [reflexivity|].
  apply on_canvas_large; [lia|exact Hg].
Qed.

(** ** Further properties of the driver *)

(** X7: one turn of the loop either writes its file and prints its line,
    or raises and leaves the file system and the output as they were. *)
Theorem write_icon_all_or_nothing size w :
  match write_icon rasterize encode "src/icons" size w with
  | (inr _, w') =>
      (exists g, icon_geometry size = inr g /\
         fs w' = <[logo_path size
                   := File (encode "PNG" (icon_image rasterize size g))]> (fs w)) /\
      stdout w' = (stdout w ++ [created_line size])%list
  | (inl _, w') => fs w' = fs w /\ stdout w' = stdout w
  end.
Proof.
  destruct (write_icon rasterize encode "src/icons" size w) as [[e|[]] w'] eqn:Hrun.
  - exact (write_icon_inv size w _ w' Hrun).
  - pose proof (write_icon_inv size w _ w' Hrun) as [Hfs Hout].
    split; [|exact Hout].
    unfold write_icon in Hrun.
    apply bind_success in Hrun as (img & w1 & Hc & _).
    apply create_returns_inv in Hc as (_ & g & Hg & _).
    exists g. split; [exact Hg|].
    rewrite Hfs. unfold with_icon. rewrite Hg. reflexivity.
Qed.

Lemma for_each_failure {A} (body : A -> M unit) xs : forall w e w1,
  for_each xs body w = (inl e, w1) ->
  exists done x todo v,
    xs = (done ++ x :: todo)%list /\
    for_each done body w = (inr tt, v) /\
    body x v = (inl e, w1).
Proof.
  induction xs as [|x xs IH]; intros w e w1; cbn [for_each]; [discriminate|].
  unfold bind. destruct (body x w) as [[e'|[]] w'] eqn:Hx.
  - intros [= <- <-]. exists [], x, xs, w. auto.
  - intros Hrest. apply IH in Hrest as (done & y & todo & v & -> & Hdone & Hy).
    exists (x :: done), y, todo, v. split; [reflexivity|].
    split; [|exact Hy]. cbn [for_each]. unfold bind. rewrite Hx. exact Hdone.
Qed.

(** X8: the only ways [main] can raise: creating the directory raised, or
    one turn of the loop did after the turns before it had returned. *)
Theorem driver_failure_is_first_failure w e w1 :
  main rasterize encode w = (inl e, w1) ->
  exists done, first_failure rasterize encode w done e w1.
Proof.
  rewrite main_unfold. unfold bind at 1.
  destruct (makedirs "src/icons" true w) as [[e'|[]] w0] eqn:Hmk.
  - intros [= <- <-]. exists []. left. auto.
  - intros Hloop.
    apply for_each_failure in Hloop as (done & s & todo & v & Hsplit & Hdone & Hs).
    exists done. right. exists w0, v, s, todo. auto.
Qed.

(** *** What the driver leaves alone *)

Lemma keeps_entries_bind {A B} (m : M A) (k : A -> M B) :
  keeps_entries m -> (forall a, keeps_entries (k a)) -> keeps_entries (bind m k).
Proof.
  intros Hm Hk w p n Hp. unfold bind. specialize (Hm w p n Hp).
  destruct (m w) as [[e|a] w1]; cbn [snd] in *; [exact Hm|].
  apply Hk. exact Hm.
Qed.

Lemma keeps_entries_try_except {A} (m : M A) h :
  keeps_entries m -> (forall e, keeps_entries (h e)) ->
  keeps_entries (try_except m h).
Proof.
  intros Hm Hh w p n Hp. unfold try_except. specialize (Hm w p n Hp).
  destruct (m w) as [[e|a] w1]; cbn [snd] in *; [|exact Hm].
  apply Hh. exact Hm.
Qed.

Lemma keeps_entries_pure {A} (m : M A) :
  (forall w, snd (m w) = w) -> keeps_entries m.
Proof. intros Hm w p n Hp. rewrite Hm. exact Hp. Qed.

Lemma keeps_entries_mkdir p : keeps_entries (mkdir p).
Proof.
  intros w q n Hq. unfold mkdir.
  destruct (parent_node p w) as [[|c]|]; try exact Hq.
  destruct (fs w !! p) eqn:Ep; [exact Hq|].
  cbn [snd fs set_fs]. rewrite lookup_insert_ne by congruence. exact Hq.
Qed.

(** [os.makedirs] only adds directories: an entry that exists is never
    removed or replaced. *)
Lemma keeps_entries_makedirs name exist_ok :
  keeps_entries (makedirs name exist_ok).
Proof.
  unfold makedirs. generalize (heads (String.length name) name) as hs.
  intros hs. revert name.
  assert (Hlast : forall name,
            keeps_entries
              (try_except (mkdir name)
                 (fun e => let* isdir := path_isdir name in
                           if negb exist_ok || negb isdir then raise e
                           else ret tt))).
  { intros name. apply keeps_entries_try_except; [apply keeps_entries_mkdir|].
    intros e. apply keeps_entries_bind;
      [apply keeps_entries_pure; reflexivity|].
    intros d. destruct (_ || _); apply keeps_entries_pure; reflexivity. }
  induction hs as [|head hs IH]; intros name; cbn [makedirs_rec].
  - apply keeps_entries_bind; [apply keeps_entries_pure; reflexivity|].
    intros _. apply Hlast.
  - apply keeps_entries_bind; [|intros _; apply Hlast].
    apply keeps_entries_bind; [apply keeps_entries_pure; reflexivity|].
    intros [|]; [apply keeps_entries_pure; reflexivity|].
    apply keeps_entries_try_except; [apply IH|].
    intros e. destruct e; apply keeps_entries_pure; reflexivity.
Qed.

Lemma keeps_path_bind {A B} q (m : M A) (k : A -> M B) :
  keeps_path q m -> (forall a, keeps_path q (k a)) -> keeps_path q (bind m k).
Proof.
  intros Hm Hk w. unfold bind. specialize (Hm w).
  destruct (m w) as [[e|a] w1]; cbn [snd] in *; [exact Hm|].
  rewrite Hk. exact Hm.
Qed.

Lemma keeps_path_try_except {A} q (m : M A) h :
  keeps_path q m -> (forall e, keeps_path q (h e)) ->
  keeps_path q (try_except m h).
Proof.
  intros Hm Hh w. unfold try_except. specialize (Hm w).
  destruct (m w) as [[e|a] w1]; cbn [snd] in *; [|exact Hm].
  rewrite Hh. exact Hm.
Qed.

Lemma keeps_path_pure {A} q (m : M A) :
  (forall w, snd (m w) = w) -> keeps_path q m.
Proof. intros Hm w. rewrite Hm. reflexivity. Qed.

Lemma keeps_path_mkdir q p : q <> p -> keeps_path q (mkdir p).
Proof.
  intros Hne w. unfold mkdir.
  destruct (parent_node p w) as [[|c]|]; try reflexivity.
  destruct (fs w !! p); [reflexivity|].
  cbn [snd fs set_fs]. apply lookup_insert_ne. congruence.
Qed.

Lemma keeps_path_makedirs_icons q :
  q <> "src" -> q <> "src/icons" -> keeps_path q (makedirs "src/icons" true).
Proof.
  intros H1 H2. unfold makedirs. change (heads _ _) with ["src"].
  cbn [makedirs_rec].
  assert (Hlast : forall name, q <> name ->
            keeps_path q
              (try_except (mkdir name)
                 (fun e => let* isdir := path_isdir name in
                           if negb true || negb isdir then raise e
                           else ret tt))).
  { intros name Hne. apply keeps_path_try_except;
      [apply keeps_path_mkdir; exact Hne|].
    intros e. apply keeps_path_bind; [apply keeps_path_pure; reflexivity|].
    intros d. destruct (_ || _); apply keeps_path_pure; reflexivity. }
  apply keeps_path_bind; [|intros _; apply Hlast; exact H2].
  apply keeps_path_bind; [apply keeps_path_pure; reflexivity|].
  intros [|]; [apply keeps_path_pure; reflexivity|].
  apply keeps_path_try_except.
  - apply keeps_path_bind; [apply keeps_path_pure; reflexivity|].
    intros _. apply Hlast. exact H1.
  - intros e. destruct e; apply keeps_path_pure; reflexivity.
Qed.

Lemma keeps_path_write_icon q size :
  q <> logo_path size ->
  keeps_path q (write_icon rasterize encode "src/icons" size).
Proof.
  intros Hne w.
  destruct (write_icon rasterize encode "src/icons" size w) as [r w'] eqn:Hrun.
  apply write_icon_inv in Hrun. cbn [snd].
  destruct r as [e|[]]; destruct Hrun as [-> _]; [reflexivity|].
  rewrite with_icon_lookup. destruct (icon_geometry size); [reflexivity|].
  destruct (decide (logo_path size = q)); [congruence|reflexivity].
Qed.

Lemma keeps_path_for_each {A} q (xs : list A) body :
  (forall x, In x xs -> keeps_path q (body x)) -> keeps_path q (for_each xs body).
Proof.
  induction xs as [|x xs IH]; intros Hb; cbn [for_each].
  - apply keeps_path_pure. reflexivity.
  - apply keeps_path_bind; [apply Hb; left; reflexivity|].
    intros _. apply IH. intros y Hy. apply Hb. right. exact Hy.
Qed.

(** X9: whether [main] returns or raises, a path other than [src],
    [src/icons] and the four icon files has afterwards the entry it had
    before, or none if it had none; and the two directories, if they
    existed in any form, are as they were. *)
Theorem driver_touches_its_paths_only w p :
  ~ In p ["src/icons/logo-16.png"; "src/icons/logo-32.png";
          "src/icons/logo-64.png"; "src/icons/logo-128.png"] ->
  (p <> "src" -> p <> "src/icons" ->
   fs (snd (main rasterize encode w)) !! p = fs w !! p) /\
  (forall n, fs w !! p = Some n ->
             fs (snd (main rasterize encode w)) !! p = Some n).
Proof.
  intros Hp. cbn [In] in Hp.
  assert (Hloop : keeps_path p
            (for_each [16; 32; 64; 128] (write_icon rasterize encode "src/icons"))).
  { apply keeps_path_for_each. intros s Hs.
    apply keeps_path_write_icon. intros ->. apply Hp.
    cbn [In] in Hs. destruct Hs as [<-|[<-|[<-|[<-|[]]]]]; auto 10. }
  split.
  - intros H1 H2. rewrite main_unfold.
    apply keeps_path_bind; [apply keeps_path_makedirs_icons; assumption|].
    intros _. exact Hloop.
  - intros n Hn. rewrite main_unfold. unfold bind.
    pose proof (keeps_entries_makedirs "src/icons" true w p n Hn) as Hmk.
    destruct (makedirs "src/icons" true w) as [[e|[]] w0]; cbn [snd] in *;
      [exact Hmk|].
    rewrite Hloop. exact Hmk.
Qed.

(** *** What a run that returns has done *)

(** When [os.makedirs(name, exist_ok=True)] returns, [name] is a
    directory. *)
Lemma makedirs_returns_dir name w w0 :
  makedirs name true w = (inr tt, w0) -> fs w0 !! name = Some Dir.
Proof.
  unfold makedirs. generalize (heads (String.length name) name) as hs.
  intros hs Hrun.
  assert (Hlast : forall v,
            try_except (mkdir name)
              (fun e => let* isdir := path_isdir name in
                        if negb true || negb isdir then raise e else ret tt) v
            = (inr tt, w0) -> fs w0 !! name = Some Dir).
  { intros v. unfold try_except.
    destruct (mkdir name v) as [[e|[]] v1] eqn:Hmk.
    - assert (v1 = v) as ->.
      { revert Hmk. unfold mkdir.
        destruct (parent_node name v) as [[|c]|]; try (intros [= _ <-]; reflexivity).
        destruct (fs v !! name); [intros [= _ <-]; reflexivity|discriminate]. }
      unfold bind, path_isdir, raise, ret.
      destruct (fs v !! name) as [[|c]|] eqn:E; cbn [negb orb];
        try discriminate.
      intros [= <-]. exact E.
    - intros [= <-]. revert Hmk. unfold mkdir.
      destruct (parent_node name v) as [[|c]|]; try discriminate.
      destruct (fs v !! name); [discriminate|].
      intros [= <-]. cbn [fs set_fs]. apply lookup_insert_eq. }
  destruct hs as [|head hs]; cbn [makedirs_rec] in Hrun;
    apply bind_success in Hrun as (a & v & _ & Hrun); exact (Hlast v Hrun).
Qed.

Lemma icons_lookup f p :
  exists g16 g32 g64 g128,
    icon_geometry 16 = inr g16 /\ icon_geometry 32 = inr g32 /\
    icon_geometry 64 = inr g64 /\ icon_geometry 128 = inr g128 /\
    with_icons rasterize encode f [16; 32; 64; 128] !! p
    = if decide (p = "src/icons/logo-128.png")
      then Some (File (encode "PNG" (icon_image rasterize 128 g128)))
      else if decide (p = "src/icons/logo-64.png")
      then Some (File (encode "PNG" (icon_image rasterize 64 g64)))
      else if decide (p = "src/icons/logo-32.png")
      then Some (File (encode "PNG" (icon_image rasterize 32 g32)))
      else if decide (p = "src/icons/logo-16.png")
      then Some (File (encode "PNG" (icon_image rasterize 16 g16)))
      else f !! p.
Proof.
  destruct (icon_geometry 16) as [|g16] eqn:G16; [vm_compute in G16; discriminate|].
  destruct (icon_geometry 32) as [|g32] eqn:G32; [vm_compute in G32; discriminate|].
  destruct (icon_geometry 64) as [|g64] eqn:G64; [vm_compute in G64; discriminate|].
  destruct (icon_geometry 128) as [|g128] eqn:G128; [vm_compute in G128; discriminate|].
  exists g16, g32, g64, g128. repeat (split; [reflexivity|]).
  unfold with_icons. cbn [fold_left].
  rewrite !with_icon_lookup, G16, G32, G64, G128.
  change (logo_path 16) with "src/icons/logo-16.png".
  change (logo_path 32) with "src/icons/logo-32.png".
  change (logo_path 64) with "src/icons/logo-64.png".
  change (logo_path 128) with "src/icons/logo-128.png".
  repeat case_decide; congruence.
Qed.

(** X10: from any world, if [main] returns then [src/icons] is a directory,
    each of the four files holds the PNG encoding of the icon of its
    size, and exactly the four lines were printed, in order. *)
Theorem driver_return_means_written w w' :
  main rasterize encode w = (inr tt, w') ->
  fs w' !! "src/icons" = Some Dir /\
  Forall2
    (fun size path =>
       exists im,
         (forall v, outcome (create_linkedin_chat_icon rasterize size v)
                    = inr (Some im)) /\
         fs w' !! path = Some (File (encode "PNG" im)))
    [16; 32; 64; 128]
    ["src/icons/logo-16.png"; "src/icons/logo-32.png";
     "src/icons/logo-64.png"; "src/icons/logo-128.png"] /\
  stdout w'
  = (stdout w ++
       ["Created src/icons/logo-16.png"; "Created src/icons/logo-32.png";
        "Created src/icons/logo-64.png"; "Created src/icons/logo-128.png"])%list.
Proof.
  rewrite main_unfold. intros Hrun.
  apply bind_success in Hrun as ([] & w0 & Hmk & Hloop).
  pose proof (makedirs_returns_dir _ _ _ Hmk) as Hdir.
  destruct (fs_only_makedirs "src/icons" true w) as [f Hf].
  rewrite Hmk in Hf. cbn [snd] in Hf.
  apply write_icons_inv in Hloop as [Hfs Hout].
  pose proof (fun p => icons_lookup (fs w0) p) as Hlook.
  rewrite <- Hfs in Hlook.
  assert (Hicon : forall size g, 0 <= size <= INT_MAX ->
              icon_geometry size = inr g ->
            forall v, outcome (create_linkedin_chat_icon rasterize size v)
                      = inr (Some (icon_image rasterize size g))).
  { intros size g Hs Hg v. rewrite (create_ok size g v Hs Hg).
    cbn [outcome]. rewrite rendered_lookup. reflexivity. }
  split.
  { destruct (Hlook "src/icons") as (? & ? & ? & ? & _ & _ & _ & _ & ->).
    exact Hdir. }
  split.
  { repeat (apply List.Forall2_cons || apply List.Forall2_nil); cbn beta.
    - destruct (Hlook "src/icons/logo-16.png")
        as (g & ? & ? & ? & G & _ & _ & _ & ->).
      exists (icon_image rasterize 16 g).
      split; [apply Hicon; [unfold INT_MAX; lia|exact G]|reflexivity].
    - destruct (Hlook "src/icons/logo-32.png")
        as (? & g & ? & ? & _ & G & _ & _ & ->).
      exists (icon_image rasterize 32 g).
      split; [apply Hicon; [unfold INT_MAX; lia|exact G]|reflexivity].
    - destruct (Hlook "src/icons/logo-64.png")
        as (? & ? & g & ? & _ & _ & G & _ & ->).
      exists (icon_image rasterize 64 g).
      split; [apply Hicon; [unfold INT_MAX; lia|exact G]|reflexivity].
    - destruct (Hlook "src/icons/logo-128.png")
        as (? & ? & ? & g & _ & _ & _ & G & ->).
      exists (icon_image rasterize 128 g).
      split; [apply Hicon; [unfold INT_MAX; lia|exact G]|reflexivity]. }
  rewrite Hout, Hf. reflexivity.
Qed.

End Properties.

(** * The theorems at work

    The renderer and the driver run on [box_raster] and
    [width_encoder], from the empty world and from [blocked_world]. *)

Lemma writable_empty : writable empty_world.
Proof.
  split; [|split].
  - intros c. cbn. rewrite lookup_empty. discriminate.
  - intros c. cbn. rewrite lookup_empty. discriminate.
  - repeat constructor; cbn; rewrite lookup_empty; discriminate.
Qed.

(** C1 as stated fails at [size = 2^31]: [Image.new] raises
    [OverflowError] and no image is returned. *)
Lemma icon_of_side_2_31_raises :
  0 < 2 ^ 31 /\
  create_linkedin_chat_icon box_raster (2 ^ 31) empty_world
  = (inl Py.OverflowError, empty_world).
Proof.
  split; [reflexivity|]. apply create_too_wide. reflexivity.
Qed.

Lemma icon_has_requested_size_witness :
  exists img w' im,
    create_linkedin_chat_icon box_raster 16 empty_world = (inr img, w') /\
    heap w' !! img = Some im /\
    has_side 16 im.
Proof.
  apply (icon_has_requested_size box_raster 16 empty_world 1%positive
           (snd (Image_new (16, 16) "#0A66C2" empty_world))).
  - lia.
  - vm_compute. reflexivity.
Defined.

(** C3 as stated fails at [size = 90]: the bubble drawn is 62 wide,
    while the floor of [90 * 0.7] is 63. *)
Lemma bubble_at_90_is_62_wide :
  fst (create_linkedin_chat_icon box_raster 90 empty_world) = inr 1%positive /\
  head (drawn (snd (create_linkedin_chat_icon box_raster 90 empty_world)))
  = Some {| dc_image := 1%positive;
            dc_shape := RoundedRectangle (14, 14, 76, 60) 9;
            dc_fill := white |} /\
  76 - 14 = 62 /\ 7 * 90 / 10 = 63.
Proof. repeat split; vm_compute; reflexivity. Qed.

Lemma bubble_box_witness :
  exists bubble_edge rest,
    Py.int_mul 90 Py.f0_7 = inr bubble_edge /\
    (bubble_edge = 7 * 90 / 10 \/
     (bubble_edge = 7 * 90 / 10 - 1 /\ (7 * 90) mod 10 = 0)) /\
    (let margin := (90 - bubble_edge) / 2 in
     drawn (snd (create_linkedin_chat_icon box_raster 90 empty_world))
     = (drawn empty_world ++
       {| dc_image := 1%positive;
          dc_shape := RoundedRectangle
                        (margin, margin, margin + bubble_edge,
                         margin + 3 * bubble_edge / 4)
                        (3 * bubble_edge / 20);
          dc_fill := white |} :: rest)%list) /\
    existsb is_rounded_rectangle rest = false.
Proof.
  apply (bubble_box box_raster 90 empty_world 1%positive).
  - lia.
  - vm_compute. reflexivity.
Defined.

Lemma icon_is_two_coloured_witness :
  getrgb "#0A66C2" = Some linkedin_blue /\
  getrgb "#FFFFFF" = Some white /\
  two_coloured
    (icon_image box_raster 16
       {| bubble_size := 11; bubble_height := 8; corner_radius := 1;
          tail_size := 2; tail_offset := 3 |}).
Proof.
  apply (icon_is_two_coloured box_raster 16 empty_world 1%positive
           (snd (create_linkedin_chat_icon box_raster 16 empty_world))).
  - lia.
  - vm_compute. reflexivity.
  - vm_compute. reflexivity.
Defined.

Lemma three_dots_witness :
  exists bubble_edge before,
    Py.floor_mul 16 Py.f0_7 = inr bubble_edge /\
    (let left := (16 - bubble_edge) / 2 in
     let top := left in
     let radius := Z.max 1 (16 / 32) in
     let y := top + bubble_edge / 3 in
     let cx := left + bubble_edge / 2 in
     let spacing := bubble_edge / 6 in
     let dot x :=
       {| dc_image := 1%positive;
          dc_shape := Ellipse (x - radius, y - radius, x + radius, y + radius);
          dc_fill := linkedin_blue |} in
     drawn (snd (create_linkedin_chat_icon box_raster 16 empty_world))
     = (drawn empty_world ++ before ++
          [dot (cx - spacing); dot cx; dot (cx + spacing)])%list /\
     existsb is_ellipse before = false /\
     1 <= radius /\ (16 < 32 -> radius = 1) /\
     heap (snd (create_linkedin_chat_icon box_raster 16 empty_world)) !! 1%positive
     = Some (fold_left (paint_call box_raster)
               (before ++ [dot (cx - spacing); dot cx; dot (cx + spacing)])%list
               (blank 16 linkedin_blue))).
Proof.
  apply (three_dots box_raster 16 empty_world 1%positive).
  - lia.
  - vm_compute. reflexivity.
Defined.

Lemma bubble_tail_witness :
  exists bubble_edge height tail_size offset bubble rest,
    Py.floor_mul 16 Py.f0_7 = inr bubble_edge /\
    Py.floor_mul bubble_edge Py.f0_75 = inr height /\
    Py.floor_mul bubble_edge Py.f0_2 = inr tail_size /\
    Py.floor_mul bubble_edge Py.f0_3 = inr offset /\
    (let left := (16 - bubble_edge) / 2 in
     let bottom := left + height in
     let tail_x := left + offset in
     drawn (snd (create_linkedin_chat_icon box_raster 16 empty_world))
     = (drawn empty_world ++
       bubble ::
       {| dc_image := 1%positive;
          dc_shape := Polygon [(tail_x, bottom);
                               (tail_x + tail_size, bottom);
                               (tail_x + tail_size / 2, bottom + tail_size / 2)];
          dc_fill := dc_fill bubble |} :: rest)%list /\
     (exists radius,
        dc_shape bubble
        = RoundedRectangle (left, left, left + bubble_edge, bottom) radius)) /\
    existsb is_polygon rest = false.
Proof.
  apply (bubble_tail box_raster 16 empty_world 1%positive).
  - lia.
  - vm_compute. reflexivity.
Defined.

Lemma driver_writes_four_icons_witness :
  exists w',
    main box_raster width_encoder empty_world = (inr tt, w') /\
    fs w' !! "src/icons" = Some Dir /\
    Forall2
      (fun size path =>
         exists im,
           (forall v, outcome (create_linkedin_chat_icon box_raster size v)
                      = inr (Some im)) /\
           has_side size im /\
           fs w' !! path = Some (File (width_encoder "PNG" im)))
      [16; 32; 64; 128]
      ["src/icons/logo-16.png"; "src/icons/logo-32.png";
       "src/icons/logo-64.png"; "src/icons/logo-128.png"] /\
    stdout w'
    = (stdout empty_world ++
         ["Created src/icons/logo-16.png"; "Created src/icons/logo-32.png";
          "Created src/icons/logo-64.png"; "Created src/icons/logo-128.png"])%list /\
    (forall p,
        ~ In p ["src"; "src/icons";
                "src/icons/logo-16.png"; "src/icons/logo-32.png";
                "src/icons/logo-64.png"; "src/icons/logo-128.png"] ->
        fs w' !! p = fs empty_world !! p).
Proof.
  apply (driver_writes_four_icons box_raster width_encoder empty_world).
  exact writable_empty.
Defined.

Lemma driver_is_idempotent_witness :
  exists w1 w2,
    main box_raster width_encoder empty_world = (inr tt, w1) /\
    main box_raster width_encoder w1 = (inr tt, w2) /\
    fs w2 = fs w1 /\
    stdout w2 = (stdout w1 ++ map created_line [16; 32; 64; 128])%list.
Proof.
  apply (driver_is_idempotent box_raster width_encoder empty_world).
  exact writable_empty.
Defined.

Lemma driver_fails_fast_witness :
  main box_raster width_encoder blocked_world
  = (inl (Py.IsADirectoryError "src/icons/logo-32.png"),
     snd (main box_raster width_encoder blocked_world)) /\
  stdout (snd (main box_raster width_encoder blocked_world))
  = (stdout blocked_world ++ map created_line [16])%list /\
  (forall w0, makedirs "src/icons" true blocked_world = (inr tt, w0) ->
              fs (snd (main box_raster width_encoder blocked_world))
              = with_icons box_raster width_encoder (fs w0) [16]).
Proof.
  apply (driver_fails_fast box_raster width_encoder blocked_world [16]).
  right.
  exists (snd (makedirs "src/icons" true blocked_world)),
    (snd (for_each [16] (write_icon box_raster width_encoder "src/icons")
            (snd (makedirs "src/icons" true blocked_world)))),
    32, [64; 128].
  split; [vm_compute; reflexivity|].
  split; [reflexivity|].
  split; vm_compute; reflexivity.
Defined.

Lemma products_against_exact_witness :
  (62 = 7 * 90 / 10 \/ (62 = 7 * 90 / 10 - 1 /\ (7 * 90) mod 10 = 0)) /\
  67 = 3 * 90 / 4.
Proof.
  apply (products_against_exact 90 62 67).
  - split; reflexivity.
  - vm_compute. reflexivity.
  - vm_compute. reflexivity.
Defined.

Lemma renderer_draws_on_its_own_image_witness :
  heap empty_world !! 1%positive = None /\
  (forall l, l <> 1%positive ->
     heap (snd (create_linkedin_chat_icon box_raster 16 empty_world)) !! l
     = heap empty_world !! l) /\
  exists calls,
    drawn (snd (create_linkedin_chat_icon box_raster 16 empty_world))
    = (drawn empty_world ++ calls)%list /\
    length calls = 5%nat /\
    Forall (fun c => dc_image c = 1%positive) calls.
Proof.
  apply (renderer_draws_on_its_own_image box_raster 16 empty_world 1%positive).
  vm_compute. reflexivity.
Defined.

Lemma renderer_boxes_are_ordered_witness :
  exists calls,
    drawn (snd (create_linkedin_chat_icon box_raster 1 empty_world))
    = (drawn empty_world ++ calls)%list /\
    forallb ordered_call calls = true.
Proof.
  apply (renderer_boxes_are_ordered box_raster 1 empty_world 1%positive).
  vm_compute. reflexivity.
Defined.

Lemma renderer_stays_on_canvas_witness :
  exists calls,
    drawn (snd (create_linkedin_chat_icon box_raster 4 empty_world))
    = (drawn empty_world ++ calls)%list /\
    forallb (call_on_canvas 4) calls = true.
Proof.
  apply (renderer_stays_on_canvas box_raster 4 empty_world 1%positive).
  - lia.
  - vm_compute. reflexivity.
Defined.

Lemma driver_failure_is_first_failure_witness :
  exists done,
    first_failure box_raster width_encoder blocked_world done
      (Py.IsADirectoryError "src/icons/logo-32.png")
      (snd (main box_raster width_encoder blocked_world)).
Proof.
  apply (driver_failure_is_first_failure box_raster width_encoder blocked_world).
  vm_compute. reflexivity.
Defined.

Lemma driver_touches_its_paths_only_witness :
  ("README.md" <> "src" -> "README.md" <> "src/icons" ->
   fs (snd (main box_raster width_encoder blocked_world)) !! "README.md"
   = fs blocked_world !! "README.md") /\
  (forall n, fs blocked_world !! "README.md" = Some n ->
             fs (snd (main box_raster width_encoder blocked_world)) !! "README.md"
             = Some n).
Proof.
  apply (driver_touches_its_paths_only box_raster width_encoder blocked_world
           "README.md").
  cbn [In]. intros [H|[H|[H|[H|[]]]]]; discriminate H.
Defined.

Lemma driver_return_means_written_witness :
  fs (snd (main box_raster width_encoder empty_world)) !! "src/icons" = Some Dir /\
  Forall2
    (fun size path =>
       exists im,
         (forall v, outcome (create_linkedin_chat_icon box_raster size v)
                    = inr (Some im)) /\
         fs (snd (main box_raster width_encoder empty_world)) !! path
         = Some (File (width_encoder "PNG" im)))
    [16; 32; 64; 128]
    ["src/icons/logo-16.png"; "src/icons/logo-32.png";
     "src/icons/logo-64.png"; "src/icons/logo-128.png"] /\
  stdout (snd (main box_raster width_encoder empty_world))
  = (stdout empty_world ++
       ["Created src/icons/logo-16.png"; "Created src/icons/logo-32.png";
        "Created src/icons/logo-64.png"; "Created src/icons/logo-128.png"])%list.
Proof.
  apply (driver_return_means_written box_raster width_encoder empty_world).
  vm_compute. reflexivity.
Defined.
